(** * Goto-line address resolution and selection-match highlighting

    A shallow embedding of the two editor extensions of the repository:
    the [go] handler of the goto-line dialog and the [getDeco] pass of
    the selection-match highlighter, together with the host-editor
    primitives they call (document lines, slicing, selections).

    Modelling conventions.
    - A JavaScript string is a list of code units, [list ascii]; code
      units are therefore restricted to the 8-bit range.
    - JavaScript numbers that the code uses as integers (offsets, line
      numbers, columns, lengths, counts) are [Z]; the percentage
      arithmetic of [go], where rounding shows, is carried out in
      IEEE 754 binary64 as the program does, on the [spec_float] of the
      Standard Library.
    - A thrown exception is an explicit result ([None], [Throw]). *)

From Stdlib Require Import ZArith QArith Qround List Ascii String Bool Lia.
From Stdlib Require Import Floats.SpecFloat.
From Stdlib Require Import Permutation.
Import ListNotations.

Open Scope Z_scope.

(** ** JavaScript strings *)

Module JS.

Definition jsstring := list ascii.

(** String literals. *)
Definition str (s : string) : jsstring := list_ascii_of_string s.

Definition length (s : jsstring) : Z := Z.of_nat (List.length s).

(** [s.slice(from, to)] for [0 <= from]; an end beyond the string is
    cut at the string's end, [to <= from] yields the empty string. *)
Definition slice (s : jsstring) (from to : Z) : jsstring :=
  firstn (Z.to_nat (to - from)) (skipn (Z.to_nat from) s).

(** [s.slice(from)]. *)
Definition sliceFrom (s : jsstring) (from : Z) : jsstring :=
  skipn (Z.to_nat from) s.

Definition code (c : ascii) : Z := Z.of_N (N_of_ascii c).

(** White space and line terminators stripped by [trim], among the
    code units below 256: TAB, LF, VT, FF, CR, SP, NBSP. *)
Definition isWhiteSpace (c : ascii) : bool :=
  let n := code c in
  ((9 <=? n) && (n <=? 13)) || (n =? 32) || (n =? 160).

Fixpoint trimStart (s : jsstring) : jsstring :=
  match s with
  | c :: r => if isWhiteSpace c then trimStart r else s
  | [] => []
  end.

Fixpoint trimEnd (s : jsstring) : jsstring :=
  match s with
  | c :: r =>
      match trimEnd r with
      | [] => if isWhiteSpace c then [] else [c]
      | r' => c :: r'
      end
  | [] => []
  end.

Definition trim (s : jsstring) : jsstring := trimEnd (trimStart s).

(** Truthiness of a string: every string but the empty one. *)
Definition truthy (s : jsstring) : bool :=
  match s with [] => false | _ :: _ => true end.

(** The regular expression class [\d]. *)
Definition isDigit (c : ascii) : bool :=
  let n := code c in (48 <=? n) && (n <=? 57).

(** Unary [+] on a string of decimal digits. *)
Definition toNumber (s : jsstring) : Z :=
  fold_left (fun acc c => 10 * acc + (code c - 48)) s 0.

(** [Math.round]: the nearest integer, ties towards plus infinity. *)
Definition Math_round (q : Q) : Z := Qfloor (q + (1 # 2))%Q.

Definition eqb (a b : jsstring) : bool :=
  if list_eq_dec ascii_dec a b then true else false.

End JS.

Import JS.

(** ** The document: [Text] *)

Module Text.

(** A document is the sequence of its code units, lines separated by a
    single line feed. *)
Definition Text := jsstring.

Definition LF : ascii := ascii_of_nat 10.

Definition isLF (c : ascii) : bool :=
  if ascii_dec c LF then true else false.

Record Line := mkLine {
  from : Z;
  to : Z;
  number : Z;
  text : jsstring
}.

(** [line.length] *)
Definition lineLength (l : Line) : Z := to l - from l.

Fixpoint splitLines (s : jsstring) : list jsstring :=
  match s with
  | [] => [[]]
  | c :: r =>
      if isLF c then [] :: splitLines r
      else match splitLines r with
           | l :: ls => (c :: l) :: ls
           | [] => [[c]]
           end
  end.

(** The line records of consecutive lines, the first starting at offset
    [start] and numbered [n]. *)
Fixpoint lineTable (ls : list jsstring) (start n : Z) : list Line :=
  match ls with
  | [] => []
  | l :: rest =>
      mkLine start (start + JS.length l) n l
        :: lineTable rest (start + JS.length l + 1) (n + 1)
  end.

Definition allLines (doc : Text) : list Line :=
  lineTable (splitLines doc) 0 1.

(** [doc.length] *)
Definition length (doc : Text) : Z := JS.length doc.

(** [doc.lines] *)
Definition lines (doc : Text) : Z := Z.of_nat (List.length (splitLines doc)).

(** [doc.lineAt(pos)]; [None] stands for the [RangeError] thrown when
    [pos] is outside the document. *)
Definition lineAt (doc : Text) (pos : Z) : option Line :=
  if (pos <? 0) || (length doc <? pos) then None
  else find (fun l => pos <=? to l) (allLines doc).

(** [doc.line(n)]; [None] stands for the [RangeError] thrown when [n]
    is not a line number of the document. *)
Definition line (doc : Text) (n : Z) : option Line :=
  if (n <? 1) || (lines doc <? n) then None
  else nth_error (allLines doc) (Z.to_nat (n - 1)).

(** The code units a list of lines covers, one separator per line. *)
Fixpoint spanLen (ls : list jsstring) : Z :=
  match ls with
  | [] => 0
  | l :: rest => JS.length l + 1 + spanLen rest
  end.

(** [doc.sliceString(from, to)] *)
Definition sliceString (doc : Text) (from to : Z) : jsstring :=
  JS.slice doc from to.

End Text.

(** ** Editor state *)

Module Editor.

Record SelectionRange := mkRange {
  anchor : Z;
  head : Z
}.

Definition from (r : SelectionRange) : Z := Z.min (anchor r) (head r).
Definition to (r : SelectionRange) : Z := Z.max (anchor r) (head r).
Definition empty (r : SelectionRange) : bool := from r =? to r.

Record EditorSelection := mkSelection {
  ranges : list SelectionRange;
  mainIndex : nat
}.

(** [sel.main] *)
Definition main (sel : EditorSelection) : SelectionRange :=
  nth (mainIndex sel) (ranges sel) (mkRange 0 0).

(** [EditorSelection.cursor(pos)], as a selection of its own. *)
Definition cursor (pos : Z) : EditorSelection :=
  mkSelection [mkRange pos pos] 0.

Inductive CharCategory := Word | Space | Other.

Definition isWord (c : CharCategory) : bool :=
  match c with Word => true | _ => false end.

(** The resolved value of the [highlightConfig] facet. *)
Record HighlightOptions := mkOptions {
  highlightWordAroundCursor : bool;
  minSelectionLength : Z;
  maxMatches : Z
}.

Definition defaultHighlightOptions : HighlightOptions :=
  mkOptions false 1 100.

Record EditorState := mkState {
  doc : Text.Text;
  selection : EditorSelection;
  (** [state.facet(highlightConfig)] *)
  highlightConfig : HighlightOptions;
  (** [state.charCategorizer(pos)] *)
  charCategorizer : Z -> jsstring -> CharCategory;
  (** [state.field(dialogField)] *)
  dialogField : bool
}.

(** [state.sliceDoc(from, to)] *)
Definition sliceDoc (state : EditorState) (from to : Z) : jsstring :=
  Text.sliceString (doc state) from to.

Record EditorView := mkView {
  state : EditorState;
  visibleRanges : list (Z * Z)
}.

(** The transactions [go] dispatches: a [dialogEffect], a new selection
    and the scroll request. *)
Record TransactionSpec := mkTransaction {
  effects : option bool;
  tr_selection : option EditorSelection;
  scrollIntoView : bool
}.

(** [view.dispatch(tr)]: the selection is replaced when the transaction
    carries one, [dialogField] takes the value of the effect. *)
Definition dispatch (view : EditorView) (tr : TransactionSpec) : EditorView :=
  let st := state view in
  mkView
    (mkState (doc st)
             (match tr_selection tr with Some s => s | None => selection st end)
             (highlightConfig st)
             (charCategorizer st)
             (match effects tr with Some v => v | None => dialogField st end))
    (visibleRanges view).

End Editor.

Import Editor.

(** ** Completion records: normal completion or a thrown exception *)

Inductive completion (A : Type) : Type :=
| Normal (a : A)
| Throw.

Arguments Normal {A} a.
Arguments Throw {A}.

Definition bind {A B : Type} (c : completion A) (k : A -> completion B)
  : completion B :=
  match c with
  | Normal a => k a
  | Throw => Throw
  end.

Definition ofOption {A : Type} (o : option A) : completion A :=
  match o with
  | Some a => Normal a
  | None => Throw
  end.

Notation "'let*' x ':=' c 'in' k" := (bind c (fun x => k))
  (at level 10, x name, c at level 100, k at level 200).

(** ** JavaScript numbers that are not integers: binary64 *)

Module Binary64.

Definition prec : Z := 53.
Definition emax : Z := 1024.

(** The number an integer converts to: the nearest binary64 number,
    ties to even, an infinity beyond the finite numbers. This is what
    unary [+] gives for a string of digits, and it is exact for the
    integers below 2^53. *)
Definition ofZ (n : Z) : spec_float := binary_normalize prec emax n 0 false.

(** [x + y], [x * y], [x / y] *)
Definition add : spec_float -> spec_float -> spec_float := SFadd prec emax.
Definition mul : spec_float -> spec_float -> spec_float := SFmul prec emax.
Definition div : spec_float -> spec_float -> spec_float := SFdiv prec emax.

(** The rational a finite number stands for. *)
Definition toQ (x : spec_float) : option Q :=
  match x with
  | S754_zero _ => Some 0%Q
  | S754_finite s m e =>
      let v := if 0 <=? e then inject_Z (Zpos m * 2 ^ e)
               else (Zpos m # Z.to_pos (2 ^ (- e)))%Q in
      Some (if s then (- v)%Q else v)
  | _ => None
  end.

(** [Math.round(x)], as an integer: for a finite [x] the nearest
    integer, ties towards plus infinity. [Math.round] of an infinity is
    that infinity; it is stood for by 2^1024 with its sign, the first
    power of two beyond the finite numbers, which [Math.min] and
    [Math.max] against the line count of a document treat as they
    treat the infinity. Only a magnitude of more than 300 digits gets
    there. [Math.round(NaN)] is [NaN]; in [go] it would take a document
    of 2^1024 lines to meet one, and it is stood for by 0. *)
Definition Math_round (x : spec_float) : Z :=
  match x with
  | S754_infinity s => if s then - 2 ^ emax else 2 ^ emax
  | S754_nan => 0
  | _ => match toQ x with Some q => JS.Math_round q | None => 0 end
  end.

End Binary64.

(** ** The goto-line dialog *)

Module GotoLine.

(** The result array of [/^([+-])?(\d+)?(:\d+)?(%)?$/.exec]: a group
    that did not take part in the match is [undefined], here [None]. *)
Record RegExpMatch := mkMatch {
  sign : option jsstring;
  ln : option jsstring;
  cl : option jsstring;
  percent : option jsstring
}.

Definition isSign (c : ascii) : bool := (code c =? 43) || (code c =? 45).
Definition isColon (c : ascii) : bool := code c =? 58.
Definition isPercent (c : ascii) : bool := code c =? 37.

(** The longest prefix of digits and what follows it. *)
Fixpoint spanDigits (s : jsstring) : jsstring * jsstring :=
  match s with
  | c :: r =>
      if isDigit c then let (d, rest) := spanDigits r in (c :: d, rest)
      else ([], s)
  | [] => ([], [])
  end.

(** [([+-])?] *)
Definition groupSign (s : jsstring) : option jsstring * jsstring :=
  match s with
  | c :: r => if isSign c then (Some [c], r) else (None, s)
  | [] => (None, s)
  end.

(** [(\d+)?] *)
Definition groupLine (s : jsstring) : option jsstring * jsstring :=
  match spanDigits s with
  | ([], _) => (None, s)
  | (d, rest) => (Some d, rest)
  end.

(** [(:\d+)?] *)
Definition groupColumn (s : jsstring) : option jsstring * jsstring :=
  match s with
  | c :: r =>
      if isColon c then
        match spanDigits r with
        | ([], _) => (None, s)
        | (d, rest) => (Some (c :: d), rest)
        end
      else (None, s)
  | [] => (None, s)
  end.

(** [(%)?] *)
Definition groupPercent (s : jsstring) : option jsstring * jsstring :=
  match s with
  | c :: r => if isPercent c then (Some [c], r) else (None, s)
  | [] => (None, s)
  end.

(** The anchored match. The four groups start with characters of
    pairwise disjoint classes and none can follow itself, so the
    backtracking matcher finds the match, if there is one, with every
    group taken greedily. *)
Definition exec (input : jsstring) : option RegExpMatch :=
  let (sign, s1) := groupSign input in
  let (ln, s2) := groupLine s1 in
  let (cl, s3) := groupColumn s2 in
  let (percent, s4) := groupPercent s3 in
  match s4 with
  | [] => Some (mkMatch sign ln cl percent)
  | _ :: _ => None
  end.

(** The language of the regular expression, group by group. *)
Definition opt (g : option jsstring) : jsstring :=
  match g with Some s => s | None => [] end.

Definition render (m : RegExpMatch) : jsstring :=
  opt (sign m) ++ opt (ln m) ++ opt (cl m) ++ opt (percent m).

Definition digits (s : jsstring) : Prop :=
  s <> [] /\ forallb isDigit s = true.

Definition wellFormed (m : RegExpMatch) : Prop :=
  (forall s, sign m = Some s -> exists c, s = [c] /\ isSign c = true) /\
  (forall s, ln m = Some s -> digits s) /\
  (forall s, cl m = Some s ->
     exists c d, s = c :: d /\ isColon c = true /\ digits d) /\
  (forall s, percent m = Some s -> exists c, s = [c] /\ isPercent c = true).

Definition matchesGrammar (input : jsstring) : Prop :=
  exists m, wellFormed m /\ input = render m.

(** The class of the first character of a string, if it has one. *)
Definition startsWith (p : ascii -> bool) (s : jsstring) : bool :=
  match s with c :: _ => p c | [] => false end.

(** Truthiness of a group: defined and not the empty string. *)
Definition given (g : option jsstring) : bool :=
  match g with Some s => truthy s | None => false end.

(** [(sign == "-" ? -1 : 1)] *)
Definition signFactor (sign : option jsstring) : Z :=
  match sign with
  | Some s => if JS.eqb s (str "-") then -1 else 1
  | None => 1
  end.

(** [let col = cl ? +cl.slice(1) : 0] *)
Definition column (m : RegExpMatch) : Z :=
  match cl m with
  | Some c => if truthy c then toNumber (sliceFrom c 1) else 0
  | None => 0
  end.

(** The value of [line] when the clamping starts: the lines of [go]
    between the destructuring of the match and the line lookup. With a
    [%] the quotients, the product with the sign, the sum and the
    product with the line count are those of binary64, and [line] is
    what [Math.round] makes of the last. *)
Definition resolveLine (m : RegExpMatch) (startLine : Text.Line) (lines : Z) : Z :=
  let line :=
    match ln m with
    | Some l => if truthy l then toNumber l else Text.number startLine
    | None => Text.number startLine
    end in
  if given (ln m) && given (percent m) then
    let pc := Binary64.div (Binary64.ofZ line) (Binary64.ofZ 100) in
    let pc :=
      if given (sign m)
      then Binary64.add
             (Binary64.mul pc (Binary64.ofZ (signFactor (sign m))))
             (Binary64.div (Binary64.ofZ (Text.number startLine))
                (Binary64.ofZ lines))
      else pc in
    Binary64.Math_round (Binary64.mul (Binary64.ofZ lines) pc)
  else if given (ln m) && given (sign m) then
    line * signFactor (sign m) + Text.number startLine
  else line.

(** The transaction [go] dispatches: the dialog is closed, the
    selection becomes a cursor at [pos], the view scrolls to it. *)
Definition moveTo (pos : Z) : TransactionSpec :=
  mkTransaction (Some false) (Some (cursor pos)) true.

(** The handler [go] of the dialog, on the text [input] of the input
    field. [Normal None] is the early [return]; [Normal (Some tr)] is
    the transaction given to [view.dispatch]. *)
Definition go (input : jsstring) (view : EditorView)
  : completion (option TransactionSpec) :=
  match exec input with
  | None => Normal None
  | Some m =>
      let state := state view in
      let* startLine :=
        ofOption (Text.lineAt (doc state) (head (main (selection state)))) in
      let col := column m in
      let line := resolveLine m startLine (Text.lines (doc state)) in
      let* docLine :=
        ofOption (Text.line (doc state)
                    (Z.max 1 (Z.min (Text.lines (doc state)) line))) in
      Normal (Some (moveTo (Text.from docLine
                            + Z.max 0 (Z.min col (Text.lineLength docLine)))))
  end.

(** The view after [go] has run. *)
Definition afterGo (input : jsstring) (view : EditorView)
  : completion EditorView :=
  let* r := go input view in
  match r with
  | Some tr => Normal (dispatch view tr)
  | None => Normal view
  end.

End GotoLine.

(** ** The selection-match highlighter *)

Module SelectionMatch.

(** [findClusterBreak(str, pos, forward)] of the text package. On
    strings of 8-bit code units there are no surrogate pairs, joiners
    or extending characters, so every code unit is a cluster of its
    own and a break is one unit away, the ends of the string apart. *)
Definition findClusterBreak (str : jsstring) (pos : Z) (forward : bool) : Z :=
  if forward
  then (if pos <? JS.length str then pos + 1 else pos)
  else (if 0 <? pos then pos - 1 else pos).

(** The first loop of [wordAt]: [while (from > 0) ...]. *)
Fixpoint wordStart (fuel : nat) (text : jsstring)
  (check : jsstring -> CharCategory) (from : Z) : Z :=
  match fuel with
  | O => from
  | S fuel' =>
      if 0 <? from then
        let prev := findClusterBreak text from false in
        if negb (isWord (check (slice text prev from))) then from
        else wordStart fuel' text check prev
      else from
  end.

(** The second loop of [wordAt]: [while (to < line.length) ...]. *)
Fixpoint wordEnd (fuel : nat) (text : jsstring) (length : Z)
  (check : jsstring -> CharCategory) (to : Z) : Z :=
  match fuel with
  | O => to
  | S fuel' =>
      if to <? length then
        let next := findClusterBreak text to true in
        if negb (isWord (check (slice text to next))) then to
        else wordEnd fuel' text length check next
      else to
  end.

(** [wordAt(doc, pos, check)]; [null] is [None]. Each loop moves its
    index by one code unit, so the length of the line bounds the
    number of iterations of either. *)
Definition wordAt (doc : Text.Text) (pos : Z)
  (check : jsstring -> CharCategory) : completion (option jsstring) :=
  let* line := ofOption (Text.lineAt doc pos) in
  let fuel := List.length (Text.text line) in
  let from := wordStart fuel (Text.text line) check (pos - Text.from line) in
  let to := wordEnd fuel (Text.text line) (Text.lineLength line) check
              (pos - Text.from line) in
  Normal (if from =? to then None else Some (slice (Text.text line) from to)).

(** Decorations. *)
Inductive Decoration := matchDeco | mainMatchDeco.

(** [deco.range(from, to)] *)
Record DecoRange := mkDeco {
  value : Decoration;
  from : Z;
  to : Z
}.

Definition DecorationSet := list DecoRange.

Definition Decoration_none : DecorationSet := [].

(** [Decoration.set(deco)], the ranges in the order given. *)
Definition Decoration_set (deco : list DecoRange) : DecorationSet := deco.

(** Modelled from the spec: the [SearchCursor] class of [./cursor] is
    not among the sources. Its specification asks for the occurrences
    of a literal query in [[from, to)], found by a naive forward scan
    with exact comparison of characters, scanning resumed at the end of
    a match, nothing found for an empty query or where fewer characters
    than the query has remain in the range. *)
Fixpoint scanFrom (fuel : nat) (doc : Text.Text) (query : jsstring)
  (pos to : Z) : list (Z * Z) :=
  match fuel with
  | O => []
  | S fuel' =>
      let stop := pos + JS.length query in
      if to <? stop then []
      else if JS.eqb (Text.sliceString doc pos stop) query
      then (pos, stop) :: scanFrom fuel' doc query stop to
      else scanFrom fuel' doc query (pos + 1) to
  end.

(** Modelled from the spec: the match spans that the calls of
    [cursor.next()] yield until [done], for
    [new SearchCursor(doc, query, from, to)]. *)
Definition SearchCursor (doc : Text.Text) (query : jsstring) (from to : Z)
  : list (Z * Z) :=
  if truthy query
  then scanFrom (Z.to_nat (to - from) + 1) doc query from to
  else [].

Definition Categorizer := jsstring -> CharCategory.

(** The whole-word test guarding the body of the inner loop. *)
Definition accepted (state : EditorState) (check : option Categorizer)
  (from to : Z) : bool :=
  match check with
  | None => true
  | Some chk =>
      ((from =? 0) || negb (isWord (chk (sliceDoc state (from - 1) from))))
      && ((to =? Text.length (doc state))
          || negb (isWord (chk (sliceDoc state to (to + 1)))))
  end.

(** The two [deco.push] branches: what one accepted match adds. *)
Definition decorate (check : option Categorizer) (range : SelectionRange)
  (from to : Z) : list DecoRange :=
  if (match check with Some _ => true | None => false end)
     && (from <=? Editor.from range) && (to >=? Editor.to range)
  then [mkDeco mainMatchDeco from to]
  else if (from >=? Editor.to range) || (to <=? Editor.from range)
  then [mkDeco matchDeco from to]
  else [].

(** The inner loop over the matches of one visible range; [None] is the
    [return Decoration.none] in its body. *)
Fixpoint scanMatches (state : EditorState) (conf : HighlightOptions)
  (check : option Categorizer) (range : SelectionRange)
  (matches : list (Z * Z)) (deco : list DecoRange) : option (list DecoRange) :=
  match matches with
  | [] => Some deco
  | (from, to) :: rest =>
      if accepted state check from to then
        let deco := deco ++ decorate check range from to in
        if Z.of_nat (List.length deco) >? maxMatches conf then None
        else scanMatches state conf check range rest deco
      else scanMatches state conf check range rest deco
  end.

(** The outer loop over [view.visibleRanges]. *)
Fixpoint scanParts (state : EditorState) (conf : HighlightOptions)
  (check : option Categorizer) (range : SelectionRange) (query : jsstring)
  (parts : list (Z * Z)) (deco : list DecoRange) : option (list DecoRange) :=
  match parts with
  | [] => Some deco
  | (pfrom, pto) :: rest =>
      match scanMatches state conf check range
              (SearchCursor (doc state) query pfrom pto) deco with
      | None => None
      | Some deco' => scanParts state conf check range query rest deco'
      end
  end.

(** The match-collection pass: [getDeco] from [let deco = []] on. *)
Definition collect (view : EditorView) (check : option Categorizer)
  (range : SelectionRange) (query : jsstring) : DecorationSet :=
  let state := state view in
  match scanParts state (highlightConfig state) check range query
          (visibleRanges view) [] with
  | None => Decoration_none
  | Some deco => Decoration_set deco
  end.

(** The choice of the query: [getDeco] up to [let deco = []].
    [Normal None] is one of its [return Decoration.none]. *)
Definition chooseQuery (view : EditorView)
  : completion (option (jsstring * option Categorizer)) :=
  let state := state view in
  let conf := highlightConfig state in
  let sel := selection state in
  if (1 <? List.length (ranges sel))%nat then Normal None
  else
    let range := main sel in
    if empty range then
      if negb (highlightWordAroundCursor conf) then Normal None
      else
        let check := charCategorizer state (head range) in
        let* query := wordAt (doc state) (head range) check in
        match query with
        | None => Normal None
        | Some query =>
            if negb (truthy query) then Normal None
            else Normal (Some (query, Some check))
        end
    else
      let len := Editor.to range - Editor.from range in
      if (len <? minSelectionLength conf) || (len >? 200) then Normal None
      else
        let query := trim (sliceDoc state (Editor.from range) (Editor.to range)) in
        if negb (truthy query) then Normal None
        else Normal (Some (query, None)).

Definition getDeco (view : EditorView) : completion DecorationSet :=
  let* chosen := chooseQuery view in
  match chosen with
  | None => Normal Decoration_none
  | Some (query, check) =>
      Normal (collect view check (main (selection (state view))) query)
  end.

(** A selection is highlighted when [getDeco] gets as far as the
    match collection with a query taken from it. *)
Definition highlighted (view : EditorView) : Prop :=
  exists query check, chooseQuery view = Normal (Some (query, check)).

(** Every decoration the pass would push, had it no cutoff. *)
Definition decorations (state : EditorState) (check : option Categorizer)
  (range : SelectionRange) (matches : list (Z * Z)) : list DecoRange :=
  flat_map (fun m => if accepted state check (fst m) (snd m)
                     then decorate check range (fst m) (snd m) else [])
           matches.

Definition allMatches (view : EditorView) (query : jsstring) : list (Z * Z) :=
  flat_map (fun p => SearchCursor (doc (state view)) query (fst p) (snd p))
           (visibleRanges view).

(** The view plugin holding the decorations. *)
Record ViewUpdate := mkUpdate {
  view : EditorView;
  selectionSet : bool;
  docChanged : bool;
  viewportChanged : bool
}.

Record matchHighlighter := mkPlugin {
  plugin_decorations : DecorationSet
}.

Definition constructor (view : EditorView) : completion matchHighlighter :=
  let* d := getDeco view in Normal (mkPlugin d).

Definition update (this : matchHighlighter) (update : ViewUpdate)
  : completion matchHighlighter :=
  if selectionSet update || docChanged update || viewportChanged update
  then let* d := getDeco (view update) in Normal (mkPlugin d)
  else Normal this.

End SelectionMatch.

(** ** Concrete editor states used in the scenarios *)

Module Scenarios.

Import SelectionMatch.

(** A categorizer for the examples: letters, digits and the underscore
    are word characters, white space is space, the rest is other. *)
Definition isWordChar (c : ascii) : bool :=
  let n := code c in
  ((48 <=? n) && (n <=? 57)) || ((65 <=? n) && (n <=? 90))
  || ((97 <=? n) && (n <=? 122)) || (n =? 95).

Definition categorize (ch : jsstring) : CharCategory :=
  if existsb isWordChar ch then Word
  else if existsb isWhiteSpace ch then Space
  else Other.

Definition stateOf (doc : Text.Text) (sel : EditorSelection)
  (conf : HighlightOptions) : EditorState :=
  mkState doc sel conf (fun _ => categorize) true.

(** The whole document is visible. *)
Definition viewOf (doc : Text.Text) (sel : EditorSelection)
  (conf : HighlightOptions) : EditorView :=
  mkView (stateOf doc sel conf) [(0, Text.length doc)].

Definition single (anchor head : Z) : EditorSelection :=
  mkSelection [mkRange anchor head] 0.

(** Scenario 1: ["foo bar foo"], the second [foo] selected. *)
Definition fooBarFoo : EditorView :=
  viewOf (str "foo bar foo") (single 8 11) defaultHighlightOptions.

(** The same document with the cursor inside the second [foo] and the
    word around the cursor highlighted. *)
Definition fooBarFooCursor : EditorView :=
  viewOf (str "foo bar foo") (single 9 9) (mkOptions true 1 100).

(** The same cursor, with a minimum selection length above the length
    of the word. *)
Definition fooBarFooCursorMin5 : EditorView :=
  viewOf (str "foo bar foo") (single 9 9) (mkOptions true 5 100).

(** A word of [n] letters, twice, a space between the two. *)
Definition twice (n : nat) : Text.Text :=
  repeat "a"%char n ++ str " " ++ repeat "a"%char n.

(** The first [len] characters of [doc] selected, [min] the minimum
    selection length. *)
Definition selectPrefix (doc : Text.Text) (len min : Z) : EditorView :=
  viewOf doc (single 0 len) (mkOptions false min 100).

(** A document of [n] empty lines. *)
Definition emptyLines (n : nat) : Text.Text := repeat Text.LF (n - 1).

(** Scenario 4: 200 lines, the cursor on line 40. *)
Definition line40of200 : EditorView :=
  viewOf (emptyLines 200) (single 39 39) defaultHighlightOptions.

(** The cursor in the middle of the only line of ["hello"]. *)
Definition helloAt3 : EditorView :=
  viewOf (str "hello") (single 3 3) defaultHighlightOptions.

End Scenarios.

(** ** The dialog around [go]: key handler and state field *)

Module GotoDialog.

Import GotoLine.

(** The effects a transaction can carry, as far as [dialogField] tells
    them apart: [e.is(dialogEffect)] with its value, or any other. *)
Inductive StateEffect :=
| dialogEffect (value : bool)
| otherEffect.

(** [dialogField.create] *)
Definition create : bool := true.

(** [dialogField.update(value, tr)], on the effects of [tr]. *)
Definition update (value : bool) (effects : list StateEffect) : bool :=
  fold_left (fun value e =>
               match e with
               | dialogEffect v => v
               | otherEffect => value
               end)
            effects value.

(** The panel constructors [dialogField] provides to [showPanel]. *)
Inductive PanelConstructor := createLineDialog.

(** [s => s.field(f) ? [createLineDialog] : []] *)
Definition provide (field : bool) : list PanelConstructor :=
  if field then [createLineDialog] else [].

(** The effects of a transaction of [dispatch], as a list. *)
Definition effectsOf (tr : TransactionSpec) : list StateEffect :=
  match effects tr with
  | Some v => [dialogEffect v]
  | None => []
  end.

(** What a key event leaves behind: the view, and whether
    [event.preventDefault()] was called. *)
Record KeyResult := mkKeyResult {
  viewAfter : EditorView;
  defaultPrevented : bool
}.

(** The [onkeydown] handler of the form, [input] being the text of the
    input field when the key goes down. *)
Definition onkeydown (keyCode : Z) (input : jsstring) (view : EditorView)
  : completion KeyResult :=
  if keyCode =? 27 then
    Normal (mkKeyResult (dispatch view (mkTransaction (Some false) None false))
                        true)
  else if keyCode =? 13 then
    let* v := afterGo input view in Normal (mkKeyResult v true)
  else Normal (mkKeyResult view false).

(** [onsubmit: go] *)
Definition onsubmit (input : jsstring) (view : EditorView)
  : completion EditorView :=
  afterGo input view.

End GotoDialog.

(** ** The configuration facet of the highlighter *)

Module Facet.

(** [HighlightOptions] as an extension gives them: every field may be
    left out. *)
Record HighlightOptions := mkContribution {
  highlightWordAroundCursor : option bool;
  minSelectionLength : option Z;
  maxMatches : option Z
}.

(** One step of the loop of [combineConfig] of the state package, for
    one key: [current] is [result[key]], [value] is [config[key]]. A
    value that is missing changes nothing, the first value given is
    taken as it is, an equal value is no conflict, and two different
    values go through the key's combining function. *)
Definition mergeKey {A : Type} (same : A -> A -> bool) (combine : A -> A -> A)
  (current value : option A) : option A :=
  match current, value with
  | None, _ => value
  | Some _, None => current
  | Some c, Some v => if same c v then current else Some (combine c v)
  end.

(** [combineConfig] for one key: the loop over the configurations, then
    the default for a key that is still undefined. *)
Definition combineKey {A : Type} (same : A -> A -> bool) (combine : A -> A -> A)
  (values : list (option A)) (default : A) : A :=
  match fold_left (mergeKey same combine) values None with
  | Some v => v
  | None => default
  end.

(** The [combine] of [highlightConfig]. *)
Definition combine (options : list HighlightOptions) : Editor.HighlightOptions :=
  mkOptions
    (combineKey Bool.eqb orb (map highlightWordAroundCursor options)
       (Editor.highlightWordAroundCursor defaultHighlightOptions))
    (combineKey Z.eqb Z.min (map minSelectionLength options)
       (Editor.minSelectionLength defaultHighlightOptions))
    (combineKey Z.eqb Z.min (map maxMatches options)
       (Editor.maxMatches defaultHighlightOptions)).

(** The values that were given for a key. *)
Definition given {A : Type} (values : list (option A)) : list A :=
  flat_map (fun v => match v with Some a => [a] | None => [] end) values.

(** [r] is the least of the values given, or the default when none
    is given. *)
Definition leastOr (default : Z) (given : list Z) (r : Z) : Prop :=
  match given with
  | [] => r = default
  | _ :: _ => In r given /\ Forall (Z.le r) given
  end.

End Facet.

(** ** The match collection on mutable objects

    [getDeco] once more, with the objects it creates and changes kept
    in a store: the array [deco] it pushes to, the [SearchCursor] of
    each visible range, whose [next] moves it on, and the field
    [decorations] of the plugin that [update] assigns. *)

Module Imperative.

Import SelectionMatch.

(** Modelled from the spec: the [SearchCursor] class of [./cursor] is
    not among the sources. An object of the class holds the document,
    the query, the position the scan has reached, the end of the
    range, and the result of the last [next]: the span found, or
    [done]. *)
Record SearchCursorObject := mkCursor {
  sc_doc : Text.Text;
  sc_query : jsstring;
  sc_pos : Z;
  sc_to : Z;
  sc_value : Z * Z;
  sc_done : bool
}.

(** The objects alive: the cursors and the arrays, each known by its
    index, and the [decorations] field of the plugin instance. *)
Record Store := mkStore {
  cursors : list SearchCursorObject;
  arrays : list (list DecoRange);
  this_decorations : DecorationSet
}.

Fixpoint replaceNth {A : Type} (n : nat) (x : A) (l : list A) : list A :=
  match l, n with
  | [], _ => []
  | _ :: rest, O => x :: rest
  | y :: rest, S n' => y :: replaceNth n' x rest
  end.

(** [[]]: a new, empty array. *)
Definition newArray (s : Store) : nat * Store :=
  (List.length (arrays s),
   mkStore (cursors s) (arrays s ++ [[]]) (this_decorations s)).

(** [array.push(x)] *)
Definition push (array : nat) (x : DecoRange) (s : Store) : Store :=
  mkStore (cursors s)
    (replaceNth array (nth array (arrays s) [] ++ [x]) (arrays s))
    (this_decorations s).

(** The elements of an array, for [array.length] and
    [Decoration.set(array)]. *)
Definition elements (array : nat) (s : Store) : list DecoRange :=
  nth array (arrays s) [].

(** [new SearchCursor(doc, query, from, to)] *)
Definition newCursor (doc : Text.Text) (query : jsstring) (from to : Z)
  (s : Store) : nat * Store :=
  (List.length (cursors s),
   mkStore (cursors s ++ [mkCursor doc query from to (0, 0) false])
     (arrays s) (this_decorations s)).

(** Modelled from the spec: the first occurrence of the query at or
    after [pos] that ends in the range, by the naive forward scan. *)
Fixpoint nextMatch (fuel : nat) (doc : Text.Text) (query : jsstring)
  (pos to : Z) : option (Z * Z) :=
  match fuel with
  | O => None
  | S fuel' =>
      let stop := pos + JS.length query in
      if to <? stop then None
      else if JS.eqb (Text.sliceString doc pos stop) query then Some (pos, stop)
      else nextMatch fuel' doc query (pos + 1) to
  end.

(** Modelled from the spec: what [next] does to the cursor. A cursor
    that is done stays done; an empty query is done at once; a match
    becomes the value and the scan resumes at its end; with no match
    left the cursor is done. *)
Definition advance (c : SearchCursorObject) : SearchCursorObject :=
  if sc_done c then c
  else if negb (truthy (sc_query c))
  then mkCursor (sc_doc c) (sc_query c) (sc_pos c) (sc_to c) (sc_value c) true
  else
    match nextMatch (Z.to_nat (sc_to c - sc_pos c) + 1)
            (sc_doc c) (sc_query c) (sc_pos c) (sc_to c) with
    | Some (from, to) =>
        mkCursor (sc_doc c) (sc_query c) to (sc_to c) (from, to) false
    | None =>
        mkCursor (sc_doc c) (sc_query c) (sc_pos c) (sc_to c) (sc_value c) true
    end.

(** [cursor.next()] *)
Definition next (cursor : nat) (s : Store) : Store :=
  match nth_error (cursors s) cursor with
  | Some c =>
      mkStore (replaceNth cursor (advance c) (cursors s)) (arrays s)
        (this_decorations s)
  | None => s
  end.

(** How a loop is left: at its end, by the [return Decoration.none] in
    the body, or not within the iterations allowed. *)
Inductive LoopExit := Finished | Returned | Unfinished.

(** [deco.push(...)] for each decoration of [decorate], the two [push]
    branches of the body. *)
Definition pushAll (array : nat) (xs : list DecoRange) (s : Store) : Store :=
  fold_left (fun s x => push array x s) xs s.

(** [while (!cursor.next().done) { ... }] *)
Fixpoint whileNext (fuel : nat) (view : EditorView)
  (check : option Categorizer) (range : SelectionRange)
  (cursor deco : nat) (s : Store) : LoopExit * Store :=
  match fuel with
  | O => (Unfinished, s)
  | S fuel' =>
      let s := next cursor s in
      match nth_error (cursors s) cursor with
      | None => (Unfinished, s)
      | Some c =>
          if sc_done c then (Finished, s)
          else
            let (from, to) := sc_value c in
            if accepted (state view) check from to then
              let s := pushAll deco (decorate check range from to) s in
              if Z.of_nat (List.length (elements deco s))
                 >? maxMatches (highlightConfig (state view))
              then (Returned, s)
              else whileNext fuel' view check range cursor deco s
            else whileNext fuel' view check range cursor deco s
      end
  end.

(** [for (let part of view.visibleRanges) { ... }]; a cursor over
    [[from, to)] is done after at most [to - from] matches. *)
Fixpoint forParts (view : EditorView) (check : option Categorizer)
  (range : SelectionRange) (query : jsstring) (parts : list (Z * Z))
  (deco : nat) (s : Store) : LoopExit * Store :=
  match parts with
  | [] => (Finished, s)
  | (pfrom, pto) :: rest =>
      let (cursor, s) := newCursor (doc (state view)) query pfrom pto s in
      match whileNext (Z.to_nat (pto - pfrom) + 1) view check range cursor deco s with
      | (Finished, s) => forParts view check range query rest deco s
      | exit => exit
      end
  end.

(** What a run gives: a completion, or nothing within the iterations
    allowed. *)
Inductive Run (A : Type) : Type :=
| Done (result : completion A)
| Endless.

Arguments Done {A} result.
Arguments Endless {A}.

(** [getDeco] from [let deco = []] on. *)
Definition collect (view : EditorView) (check : option Categorizer)
  (range : SelectionRange) (query : jsstring) (s : Store)
  : Run DecorationSet * Store :=
  let (deco, s) := newArray s in
  match forParts view check range query (visibleRanges view) deco s with
  | (Finished, s) => (Done (Normal (Decoration_set (elements deco s))), s)
  | (Returned, s) => (Done (Normal Decoration_none), s)
  | (Unfinished, s) => (Endless, s)
  end.

(** [getDeco(view)], in a store. The choice of the query creates and
    changes no object. *)
Definition getDeco (view : EditorView) (s : Store) : Run DecorationSet * Store :=
  match chooseQuery view with
  | Throw => (Done Throw, s)
  | Normal None => (Done (Normal Decoration_none), s)
  | Normal (Some (query, check)) =>
      collect view check (main (selection (state view))) query s
  end.

(** [update(update)] of the plugin: the assignment to
    [this.decorations] when [getDeco] returns. *)
Definition update (u : ViewUpdate) (s : Store) : Store :=
  if selectionSet u || docChanged u || viewportChanged u then
    match getDeco (SelectionMatch.view u) s with
    | (Done (Normal d), s') => mkStore (cursors s') (arrays s') d
    | (_, s') => s'
    end
  else s.

End Imperative.

(** ** Further documents for the examples *)

Module Documents.

(** Three lines: [ab], [cdef] and [g]. *)
Definition threeLines : Text.Text :=
  str "ab" ++ [Text.LF] ++ str "cdef" ++ [Text.LF] ++ str "g".

(** The view of [doc] with the cursor at [pos] and the dialog open. *)
Definition cursorAt (doc : Text.Text) (pos : Z) : EditorView :=
  Scenarios.viewOf doc (Scenarios.single pos pos) defaultHighlightOptions.

End Documents.

(** * Properties *)

(** ** Lines of a document *)

Module TextFacts.

Import Text.

Lemma splitLines_cons (s : jsstring) :
  exists l ls, splitLines s = l :: ls.
Proof.
  induction s as [|c r [l [ls IH]]]; simpl.
  - eauto.
  - destruct (isLF c); [eauto|]. rewrite IH. eauto.
Qed.

Lemma spanLen_splitLines (s : jsstring) :
  spanLen (splitLines s) = JS.length s + 1.
Proof.
  unfold JS.length.
  induction s as [|c r IH]; simpl splitLines.
  - reflexivity.
  - destruct (isLF c).
    + cbn [spanLen]. rewrite IH. unfold JS.length. cbn [List.length]. lia.
    + destruct (splitLines_cons r) as [l [ls E]]. rewrite E in *.
      cbn [spanLen] in *. unfold JS.length in *. cbn [List.length]. lia.
Qed.

Lemma lines_pos (doc : Text) : 1 <= lines doc.
Proof.
  unfold lines. destruct (splitLines_cons doc) as [l [ls E]]. rewrite E.
  cbn [List.length]. lia.
Qed.

Lemma lineTable_length (ls : list jsstring) (start n : Z) :
  List.length (lineTable ls start n) = List.length ls.
Proof.
  revert start n. induction ls as [|l rest IH]; intros; simpl; [|rewrite IH];
    reflexivity.
Qed.

Lemma spanLen_nonneg (ls : list jsstring) : 0 <= spanLen ls.
Proof.
  induction ls as [|l rest IH]; cbn [spanLen]; unfold JS.length; lia.
Qed.

(** Where the [k]-th record of a table lies and what it is numbered. *)
Lemma lineTable_nth (ls : list jsstring) (start n : Z) (k : nat) (L : Line) :
  nth_error (lineTable ls start n) k = Some L ->
  start <= from L /\ from L <= to L /\ to L + 1 <= start + spanLen ls
  /\ number L = n + Z.of_nat k /\ to L = from L + JS.length (text L).
Proof.
  revert start n k. induction ls as [|l rest IH]; intros start n k H.
  - destruct k; discriminate.
  - destruct k as [|k]; simpl in H.
    + injection H as <-. cbn [from to number text spanLen].
      pose proof (spanLen_nonneg rest). unfold JS.length. lia.
    + apply IH in H. cbn [spanLen]. unfold JS.length in *. lia.
Qed.

(** The search of [lineAt] in a table, from the table's start on. *)
Lemma lineTable_find (ls : list jsstring) (start n pos : Z) :
  start <= pos -> pos + 1 <= start + spanLen ls ->
  exists k L, find (fun l => pos <=? to l) (lineTable ls start n) = Some L
              /\ nth_error (lineTable ls start n) k = Some L
              /\ from L <= pos <= to L.
Proof.
  revert start n. induction ls as [|l rest IH]; intros start n Hlo Hhi.
  - cbn [spanLen] in Hhi. lia.
  - cbn [lineTable find to]. destruct (pos <=? start + JS.length l) eqn:E.
    + exists O. eexists. split; [reflexivity|]. split; [reflexivity|].
      cbn [from to]. lia.
    + apply Z.leb_gt in E.
      destruct (IH (start + JS.length l + 1) (n + 1)) as [k [L [F [N B]]]].
      * lia.
      * cbn [spanLen] in Hhi. lia.
      * exists (S k), L. auto.
Qed.

Lemma lineAt_defined (doc : Text) (pos : Z) :
  0 <= pos <= length doc ->
  exists k L, lineAt doc pos = Some L
              /\ nth_error (allLines doc) k = Some L
              /\ from L <= pos <= to L.
Proof.
  intros H. unfold lineAt.
  replace ((pos <? 0) || (length doc <? pos)) with false
    by (symmetry; apply orb_false_intro; [apply Z.ltb_ge | apply Z.ltb_ge]; lia).
  apply lineTable_find; [lia|]. rewrite spanLen_splitLines.
  unfold length in H. lia.
Qed.

Lemma lineAt_inv (doc : Text) (pos : Z) (L : Line) :
  lineAt doc pos = Some L ->
  0 <= pos <= length doc
  /\ (exists k, nth_error (allLines doc) k = Some L)
  /\ from L <= pos <= to L.
Proof.
  intros H. assert (R : 0 <= pos <= length doc).
  { unfold lineAt in H.
    destruct (pos <? 0) eqn:E1; [discriminate|].
    destruct (length doc <? pos) eqn:E2; [discriminate|].
    apply Z.ltb_ge in E1, E2. lia. }
  destruct (lineAt_defined doc pos R) as [k [L' [E [N B]]]].
  rewrite E in H. injection H as <-. eauto.
Qed.

(** A record of the table is a line of the document, found again under
    its number. *)
Lemma allLines_nth (doc : Text) (k : nat) (L : Line) :
  nth_error (allLines doc) k = Some L ->
  line doc (number L) = Some L
  /\ 1 <= number L <= lines doc
  /\ 0 <= from L /\ from L <= to L /\ to L <= length doc
  /\ to L = from L + JS.length (text L).
Proof.
  intros H. pose proof (lineTable_nth _ _ _ _ _ H) as [A [B [C [D E]]]].
  assert (K : (k < List.length (allLines doc))%nat)
    by (apply nth_error_Some; congruence).
  unfold allLines in K. rewrite lineTable_length in K.
  rewrite spanLen_splitLines in C.
  assert (R : 1 <= number L <= lines doc) by (unfold lines; lia).
  repeat split; try (unfold length; lia).
  unfold line.
  replace ((number L <? 1) || (lines doc <? number L)) with false
    by (symmetry; apply orb_false_intro; [apply Z.ltb_ge | apply Z.ltb_ge]; lia).
  replace (Z.to_nat (number L - 1)) with k by lia. exact H.
Qed.

Lemma line_defined (doc : Text) (n : Z) :
  1 <= n <= lines doc ->
  exists L, line doc n = Some L /\ number L = n
            /\ 0 <= from L /\ from L <= to L /\ to L <= length doc.
Proof.
  intros H.
  assert (K : (Z.to_nat (n - 1) < List.length (allLines doc))%nat).
  { unfold allLines. rewrite lineTable_length. unfold lines in H. lia. }
  apply nth_error_Some in K.
  destruct (nth_error (allLines doc) (Z.to_nat (n - 1))) as [L|] eqn:E;
    [|congruence].
  destruct (allLines_nth _ _ _ E) as [A [B [C [D [F G]]]]].
  pose proof (lineTable_nth _ _ _ _ _ E) as [_ [_ [_ [Num _]]]].
  assert (number L = n) by lia. subst n. eauto 10.
Qed.

(** The line of a position is a line of the document. *)
Lemma lineAt_line (doc : Text) (pos : Z) (L : Line) :
  lineAt doc pos = Some L ->
  line doc (number L) = Some L /\ 1 <= number L <= lines doc
  /\ 0 <= from L /\ from L <= pos /\ pos <= to L /\ to L <= length doc
  /\ to L = from L + JS.length (text L).
Proof.
  intros H. apply lineAt_inv in H as [R [[k N] B]].
  destruct (allLines_nth _ _ _ N) as [A [C [D [E [F G]]]]].
  repeat split; auto; lia.
Qed.

End TextFacts.

(** ** The regular expression of the dialog *)

Module GrammarFacts.

Import GotoLine.

Ltac classes :=
  unfold isSign, isDigit, isColon, isPercent in *;
  repeat match goal with
    | H : (_ || _) = true |- _ => apply orb_true_iff in H; destruct H
    | H : (_ && _) = true |- _ => apply andb_true_iff in H; destruct H
    | H : (_ =? _) = true |- _ => apply Z.eqb_eq in H
    | H : (_ <=? _) = true |- _ => apply Z.leb_le in H
    end;
  rewrite ?orb_false_iff, ?andb_false_iff, ?Z.eqb_neq, ?Z.leb_gt;
  try lia.

Lemma sign_not_digit c : isSign c = true -> isDigit c = false.
Proof. intros; classes. Qed.

Lemma digit_not_sign c : isDigit c = true -> isSign c = false.
Proof. intros; classes. Qed.

Lemma colon_not_sign c : isColon c = true -> isSign c = false.
Proof. intros; classes. Qed.

Lemma colon_not_digit c : isColon c = true -> isDigit c = false.
Proof. intros; classes. Qed.

Lemma percent_not_sign c : isPercent c = true -> isSign c = false.
Proof. intros; classes. Qed.

Lemma percent_not_digit c : isPercent c = true -> isDigit c = false.
Proof. intros; classes. Qed.

Lemma percent_not_colon c : isPercent c = true -> isColon c = false.
Proof. intros; classes. Qed.

Lemma spanDigits_app (d r : jsstring) :
  forallb isDigit d = true -> startsWith isDigit r = false ->
  spanDigits (d ++ r) = (d, r).
Proof.
  intros Hd Hr. induction d as [|c d IH]; cbn [app forallb spanDigits] in *.
  - destruct r as [|c r]; [reflexivity|]. cbn [startsWith spanDigits] in *.
    rewrite Hr. reflexivity.
  - apply andb_true_iff in Hd as [Hc Hd]. rewrite Hc, (IH Hd). reflexivity.
Qed.

Lemma spanDigits_inv (s d r : jsstring) :
  spanDigits s = (d, r) ->
  s = d ++ r /\ forallb isDigit d = true /\ startsWith isDigit r = false.
Proof.
  revert d r. induction s as [|c s IH]; intros d r H; cbn [spanDigits] in H.
  - injection H as <- <-. auto.
  - destruct (isDigit c) eqn:E.
    + destruct (spanDigits s) as [d' r'] eqn:S. injection H as <- <-.
      destruct (IH _ _ eq_refl) as [A [B C]]. subst s.
      cbn [app forallb]. rewrite E. auto.
    + injection H as <- <-. cbn [app forallb startsWith]. auto.
Qed.

(** What each group function returns. *)
Lemma groupSign_inv s g r :
  groupSign s = (g, r) ->
  s = opt g ++ r
  /\ (forall x, g = Some x -> exists c, x = [c] /\ isSign c = true)
  /\ (g = None -> startsWith isSign r = false).
Proof.
  unfold groupSign. destruct s as [|c s]; [|destruct (isSign c) eqn:E];
    intros H; injection H as <- <-; cbn [opt app startsWith];
    (split; [reflexivity|split]); try discriminate; auto.
  intros y [= <-]. eauto.
Qed.

Lemma groupLine_inv s g r :
  groupLine s = (g, r) ->
  s = opt g ++ r /\ (forall x, g = Some x -> digits x)
  /\ startsWith isDigit r = false.
Proof.
  unfold groupLine. destruct (spanDigits s) as [d r'] eqn:S.
  apply spanDigits_inv in S as [A [B C]]. destruct d as [|c d].
  - intros [= <- <-]. simpl in A. subst r'.
    split; [reflexivity|split]; [discriminate|assumption].
  - intros [= <- <-]. split; [assumption|split]; [|assumption].
    intros y [= <-]. split; [discriminate|assumption].
Qed.

Lemma groupColumn_inv s g r :
  groupColumn s = (g, r) ->
  s = opt g ++ r
  /\ (forall x, g = Some x ->
        exists c d, x = c :: d /\ isColon c = true /\ digits d).
Proof.
  unfold groupColumn. destruct s as [|c s].
  - intros [= <- <-]. split; [reflexivity|discriminate].
  - destruct (isColon c) eqn:E.
    + destruct (spanDigits s) as [d r'] eqn:S.
      apply spanDigits_inv in S as [A [B C]]. destruct d as [|c' d].
      * intros [= <- <-]. split; [reflexivity|discriminate].
      * intros [= <- <-]. subst s. split; [reflexivity|]. intros y [= <-].
        exists c, (c' :: d). split; [reflexivity|split]; [assumption|].
        split; [discriminate|assumption].
    + intros [= <- <-]. split; [reflexivity|discriminate].
Qed.

Lemma groupPercent_inv s g r :
  groupPercent s = (g, r) ->
  s = opt g ++ r
  /\ (forall x, g = Some x -> exists c, x = [c] /\ isPercent c = true).
Proof.
  unfold groupPercent. destruct s as [|c s]; [|destruct (isPercent c) eqn:E];
    intros H; injection H as <- <-; cbn [opt app];
    (split; [reflexivity|]); try discriminate.
  intros y [= <-]. eauto.
Qed.

(** A successful match splits the input into its groups. *)
Lemma exec_sound (input : jsstring) (m : RegExpMatch) :
  exec input = Some m -> wellFormed m /\ input = render m.
Proof.
  unfold exec.
  destruct (groupSign input) as [g1 s1] eqn:E1.
  destruct (groupLine s1) as [g2 s2] eqn:E2.
  destruct (groupColumn s2) as [g3 s3] eqn:E3.
  destruct (groupPercent s3) as [g4 s4] eqn:E4.
  destruct s4; [|discriminate]. intros [= <-].
  apply groupSign_inv in E1 as [A1 [B1 _]].
  apply groupLine_inv in E2 as [A2 [B2 _]].
  apply groupColumn_inv in E3 as [A3 B3].
  apply groupPercent_inv in E4 as [A4 B4].
  split.
  - unfold wellFormed; cbn [sign ln cl percent].
    split; [|split; [|split]]; assumption.
  - unfold render; cbn [sign ln cl percent]. subst input s1 s2 s3.
    rewrite app_nil_r. reflexivity.
Qed.

(** What each group function does on a string it is meant for. *)
Lemma groupSign_some c r :
  isSign c = true -> groupSign (c :: r) = (Some [c], r).
Proof. intros H. unfold groupSign. rewrite H. reflexivity. Qed.

Lemma groupSign_none s :
  startsWith isSign s = false -> groupSign s = (None, s).
Proof.
  destruct s as [|c s]; cbn [startsWith groupSign]; [reflexivity|].
  intros ->. reflexivity.
Qed.

Lemma groupLine_some d r :
  digits d -> startsWith isDigit r = false -> groupLine (d ++ r) = (Some d, r).
Proof.
  intros [N D] R. unfold groupLine. rewrite (spanDigits_app _ _ D R).
  destruct d; [congruence|reflexivity].
Qed.

Lemma groupLine_none s :
  startsWith isDigit s = false -> groupLine s = (None, s).
Proof.
  intros R. unfold groupLine.
  change s with ([] ++ s) at 1. rewrite (spanDigits_app [] s eq_refl R).
  reflexivity.
Qed.

Lemma groupColumn_some c d r :
  isColon c = true -> digits d -> startsWith isDigit r = false ->
  groupColumn (c :: d ++ r) = (Some (c :: d), r).
Proof.
  intros C [N D] R. unfold groupColumn. rewrite C, (spanDigits_app _ _ D R).
  destruct d; [congruence|reflexivity].
Qed.

Lemma groupColumn_none s :
  startsWith isColon s = false -> groupColumn s = (None, s).
Proof.
  destruct s as [|c s]; cbn [startsWith groupColumn]; [reflexivity|].
  intros ->. reflexivity.
Qed.

Lemma groupPercent_some c r :
  isPercent c = true -> groupPercent (c :: r) = (Some [c], r).
Proof. intros H. unfold groupPercent. rewrite H. reflexivity. Qed.

Lemma startsWith_digits p d r :
  digits d -> (forall c, isDigit c = true -> p c = false) ->
  startsWith p (d ++ r) = false.
Proof.
  intros [N D] H. destruct d as [|c d]; [congruence|].
  cbn [app startsWith forallb] in *. apply andb_true_iff in D as [D _]. auto.
Qed.

Create HintDb classes.

#[local] Hint Resolve sign_not_digit digit_not_sign colon_not_sign
  colon_not_digit percent_not_sign percent_not_digit percent_not_colon
  startsWith_digits : classes.

Lemma digit_not_colon c : isDigit c = true -> isColon c = false.
Proof. intros; classes. Qed.

(** Every string of the language is matched, with the groups it was
    built from. *)
Lemma exec_complete (m : RegExpMatch) :
  wellFormed m -> exec (render m) = Some m.
Proof.
  destruct m as [sg l c p]. unfold wellFormed, render; cbn [sign ln cl percent].
  intros [Hs [Hl [Hc Hp]]]. unfold exec.
  assert (Tp : startsWith isSign (opt p) = false
               /\ startsWith isDigit (opt p) = false
               /\ startsWith isColon (opt p) = false
               /\ groupPercent (opt p) = (p, [])).
  { destruct p as [x|]; [|cbn; auto].
    destruct (Hp _ eq_refl) as [c0 [-> C0]]. cbn [opt startsWith].
    rewrite (groupPercent_some _ _ C0). auto 6 with classes. }
  destruct Tp as [P1 [P2 [P3 P4]]].
  assert (Tc : startsWith isSign (opt c ++ opt p) = false
               /\ startsWith isDigit (opt c ++ opt p) = false
               /\ groupColumn (opt c ++ opt p) = (c, opt p)).
  { destruct c as [x|].
    - destruct (Hc _ eq_refl) as [c0 [d [-> [C0 D]]]]. cbn [opt app startsWith].
      rewrite (groupColumn_some _ _ _ C0 D P2). auto with classes.
    - cbn [opt app]. rewrite (groupColumn_none _ P3). auto. }
  destruct Tc as [C1 [C2 C3]].
  assert (Tl : startsWith isSign (opt l ++ opt c ++ opt p) = false
               /\ groupLine (opt l ++ opt c ++ opt p) = (l, opt c ++ opt p)).
  { destruct l as [x|].
    - pose proof (Hl _ eq_refl) as D. cbn [opt].
      rewrite (groupLine_some _ _ D C2). split; [|reflexivity].
      apply startsWith_digits; auto with classes.
    - cbn [opt app]. rewrite (groupLine_none _ C2). auto. }
  destruct Tl as [L1 L2].
  assert (Ts : groupSign (opt sg ++ opt l ++ opt c ++ opt p)
               = (sg, opt l ++ opt c ++ opt p)).
  { destruct sg as [x|].
    - destruct (Hs _ eq_refl) as [c0 [-> C0]]. cbn [opt app].
      apply groupSign_some; assumption.
    - cbn [opt app]. apply groupSign_none; assumption. }
  rewrite Ts, L2, C3, P4. reflexivity.
Qed.

(** The matcher decides the language. *)
Lemma exec_matchesGrammar (input : jsstring) :
  matchesGrammar input <-> exists m, exec input = Some m.
Proof.
  split.
  - intros [m [W ->]]. exists m. apply exec_complete; assumption.
  - intros [m E]. exists m. apply exec_sound; assumption.
Qed.

Lemma exec_none (input : jsstring) :
  ~ matchesGrammar input <-> exec input = None.
Proof.
  rewrite exec_matchesGrammar. destruct (exec input) as [m|].
  - split; [intros H; exfalso; eauto | discriminate].
  - split; [reflexivity | intros _ [m E]; discriminate].
Qed.

End GrammarFacts.

(** ** Address resolution *)

Module GotoLineFacts.

Import Text GotoLine GrammarFacts TextFacts.

Section Resolution.

Variable view : EditorView.

Let document := doc (state view).
Let position := head (main (selection (state view))).

(** Once the input has matched and the cursor is in the document, [go]
    dispatches: the clamped line is a line of the document. *)
Lemma go_dispatches (input : jsstring) (m : RegExpMatch) (startLine : Line) :
  exec input = Some m ->
  lineAt document position = Some startLine ->
  exists docLine,
    line document
      (Z.max 1 (Z.min (lines document) (resolveLine m startLine (lines document))))
    = Some docLine
    /\ number docLine
       = Z.max 1 (Z.min (lines document) (resolveLine m startLine (lines document)))
    /\ 0 <= from docLine /\ from docLine <= to docLine
    /\ to docLine <= length document
    /\ go input view
       = Normal (Some (moveTo (from docLine
                               + Z.max 0 (Z.min (column m) (lineLength docLine))))).
Proof.
  intros E S. pose proof (lines_pos document) as P.
  destruct (line_defined document
              (Z.max 1 (Z.min (lines document)
                          (resolveLine m startLine (lines document)))))
    as [docLine [L [N [A [B C]]]]]; [lia|].
  exists docLine. repeat (split; [assumption|]).
  unfold go. rewrite E. fold document position. rewrite S. cbn [ofOption bind].
  rewrite L. reflexivity.
Qed.

End Resolution.

Lemma given_ln (m : RegExpMatch) :
  wellFormed m -> given (ln m) = match ln m with Some _ => true | None => false end.
Proof.
  intros [_ [H _]]. destruct (ln m) as [l|]; [|reflexivity].
  destruct (H l eq_refl) as [N _]. destruct l; [congruence|reflexivity].
Qed.

Lemma given_sign (m : RegExpMatch) :
  wellFormed m ->
  given (sign m) = match sign m with Some _ => true | None => false end.
Proof.
  intros [H _]. destruct (sign m) as [l|]; [|reflexivity].
  destruct (H l eq_refl) as [c [-> _]]. reflexivity.
Qed.

Lemma given_percent (m : RegExpMatch) :
  wellFormed m ->
  given (percent m) = match percent m with Some _ => true | None => false end.
Proof.
  intros [_ [_ [_ H]]]. destruct (percent m) as [l|]; [|reflexivity].
  destruct (H l eq_refl) as [c [-> _]]. reflexivity.
Qed.

(** Without a line group the line stays what it was. *)
Lemma resolveLine_no_ln (m : RegExpMatch) (startLine : Line) (n : Z) :
  ln m = None -> resolveLine m startLine n = number startLine.
Proof. intros H. unfold resolveLine. rewrite H. reflexivity. Qed.

(** C5. An input that is not in the language of
    [^([+-])?(\d+)?(:\d+)?(%)?$] is rejected: [go] returns before it
    dispatches anything, and the view (selection, dialog, document) is
    what it was. *)
Theorem go_rejects_outside_grammar (input : jsstring) (view : EditorView) :
  ~ matchesGrammar input ->
  go input view = Normal None /\ afterGo input view = Normal view.
Proof.
  intros H. apply exec_none in H.
  assert (G : go input view = Normal None) by (unfold go; rewrite H; reflexivity).
  split; [exact G|]. unfold afterGo. rewrite G. reflexivity.
Qed.

Lemma go_rejects_outside_grammar_witness :
  ~ matchesGrammar (str "abc")
  /\ go (str "abc") Scenarios.helloAt3 = Normal None
  /\ afterGo (str "abc") Scenarios.helloAt3 = Normal Scenarios.helloAt3.
Proof.
  assert (H : ~ matchesGrammar (str "abc")) by (apply exec_none; reflexivity).
  split; [exact H|].
  exact (go_rejects_outside_grammar (str "abc") Scenarios.helloAt3 H).
Defined.

(** C4. For an input of the language and a cursor inside the document,
    the line looked up is the resolved line clamped into
    [[1, doc.lines]], the column added to its start is the given column
    clamped into [[0, line.length]], and the position of the dispatched
    cursor lies in [[0, doc.length]]. *)
Theorem go_clamps_line_and_column (input : jsstring) (view : EditorView) :
  matchesGrammar input ->
  0 <= head (main (selection (state view))) <= length (doc (state view)) ->
  exists m startLine docLine,
    let document := doc (state view) in
    let n := Z.max 1 (Z.min (lines document)
                        (resolveLine m startLine (lines document))) in
    let c := Z.max 0 (Z.min (column m) (lineLength docLine)) in
    exec input = Some m
    /\ lineAt document (head (main (selection (state view)))) = Some startLine
    /\ 1 <= n <= lines document
    /\ line document n = Some docLine /\ number docLine = n
    /\ 0 <= c <= lineLength docLine
    /\ go input view = Normal (Some (moveTo (from docLine + c)))
    /\ 0 <= from docLine + c <= length document.
Proof.
  intros G R. apply exec_matchesGrammar in G as [m E].
  destruct (lineAt_defined _ _ R) as [k [startLine [S _]]].
  destruct (go_dispatches view input m startLine E S)
    as [docLine [L [N [A [B [C D]]]]]].
  exists m, startLine, docLine. cbv zeta.
  pose proof (lines_pos (doc (state view))) as P.
  unfold lineLength in *. repeat split; try assumption; lia.
Qed.

Lemma go_clamps_line_and_column_witness :
  exists m startLine docLine,
    let document := doc (state Scenarios.helloAt3) in
    let n := Z.max 1 (Z.min (lines document)
                        (resolveLine m startLine (lines document))) in
    let c := Z.max 0 (Z.min (column m) (lineLength docLine)) in
    exec (str "12:9") = Some m
    /\ lineAt document (head (main (selection (state Scenarios.helloAt3))))
       = Some startLine
    /\ 1 <= n <= lines document
    /\ line document n = Some docLine /\ number docLine = n
    /\ 0 <= c <= lineLength docLine
    /\ go (str "12:9") Scenarios.helloAt3 = Normal (Some (moveTo (from docLine + c)))
    /\ 0 <= from docLine + c <= length document.
Proof.
  apply (go_clamps_line_and_column (str "12:9") Scenarios.helloAt3).
  - apply exec_matchesGrammar. eexists. reflexivity.
  - vm_compute. split; discriminate.
Defined.

(** C2, as the code has it. For an input of the language without a
    line group, the line looked up is the line of the cursor, and the
    cursor goes to the given column of that line, clamped to the line's
    length; with no column group either, it goes to the start of the
    line of the cursor (column 0), wherever in that line it was. *)
Theorem go_without_line_stays_on_line
  (m : RegExpMatch) (view : EditorView) (startLine : Line) :
  wellFormed m -> ln m = None ->
  lineAt (doc (state view)) (head (main (selection (state view)))) = Some startLine ->
  resolveLine m startLine (lines (doc (state view))) = number startLine
  /\ line (doc (state view))
       (Z.max 1 (Z.min (lines (doc (state view))) (number startLine)))
     = Some startLine
  /\ go (render m) view
     = Normal (Some (moveTo (from startLine
                             + Z.max 0 (Z.min (column m) (lineLength startLine)))))
  /\ (cl m = None -> go (render m) view = Normal (Some (moveTo (from startLine)))).
Proof.
  intros W N S.
  destruct (go_dispatches view (render m) m startLine (exec_complete m W) S)
    as [docLine [L [_ [_ [_ [_ G]]]]]].
  destruct (lineAt_line _ _ _ S) as [L' [R [A [B [C [D E]]]]]].
  rewrite (resolveLine_no_ln m startLine _ N) in L.
  replace (Z.max 1 (Z.min (lines (doc (state view))) (number startLine)))
    with (number startLine) in * by lia.
  assert (docLine = startLine) by congruence. subst docLine.
  split; [apply resolveLine_no_ln; assumption|].
  split; [assumption|]. split; [assumption|].
  intros Hc. rewrite G. unfold column. rewrite Hc. unfold lineLength.
  do 3 f_equal. lia.
Qed.

Lemma go_without_line_stays_on_line_witness :
  resolveLine (mkMatch None None (Some (str ":4")) None)
    (mkLine 0 5 1 (str "hello")) (lines (doc (state Scenarios.helloAt3))) = 1
  /\ go (str ":4") Scenarios.helloAt3 = Normal (Some (moveTo 4)).
Proof.
  destruct (go_without_line_stays_on_line
              (mkMatch None None (Some (str ":4")) None)
              Scenarios.helloAt3 (mkLine 0 5 1 (str "hello")))
    as [A [_ [B _]]].
  - apply (exec_sound (str ":4")). reflexivity.
  - reflexivity.
  - reflexivity.
  - split; [exact A | exact B].
Defined.

(** C2 fails as stated: on ["hello"] with the cursor at offset 3, the
    empty input matches the grammar with neither line nor column group,
    and [go] moves the cursor to offset 0. *)
Lemma go_empty_input_moves_cursor :
  matchesGrammar (str "")
  /\ exec (str "") = Some (mkMatch None None None None)
  /\ head (main (selection (state Scenarios.helloAt3))) = 3
  /\ afterGo (str "") Scenarios.helloAt3
     = Normal (dispatch Scenarios.helloAt3 (moveTo 0))
  /\ head (main (selection (state (dispatch Scenarios.helloAt3 (moveTo 0))))) = 0
  /\ ~ (forall view', afterGo (str "") Scenarios.helloAt3 = Normal view' ->
          head (main (selection (state view')))
          = head (main (selection (state Scenarios.helloAt3)))).
Proof.
  split; [apply exec_matchesGrammar; eexists; reflexivity|].
  repeat (split; [reflexivity|]).
  intros H. specialize (H _ eq_refl). discriminate H.
Qed.

Lemma code_inj (a b : ascii) : code a = code b -> a = b.
Proof.
  unfold code. intros H. apply N2Z.inj in H.
  rewrite <- (ascii_N_embedding a), <- (ascii_N_embedding b), H. reflexivity.
Qed.

Lemma signFactor_char (c : ascii) :
  signFactor (Some [c]) = if code c =? 45 then -1 else 1.
Proof.
  unfold signFactor, JS.eqb.
  destruct (list_eq_dec ascii_dec [c] (str "-")) as [E|E];
    destruct (Z.eqb_spec (code c) 45) as [F|F]; try reflexivity; exfalso.
  - injection E as ->. apply F. reflexivity.
  - apply E. unfold str. cbn [list_ascii_of_string]. f_equal.
    apply code_inj. rewrite F. reflexivity.
Qed.

(** Addition and multiplication of binary64 commute. *)
Lemma mul_comm (x y : spec_float) : Binary64.mul x y = Binary64.mul y x.
Proof.
  unfold Binary64.mul.
  destruct x as [sx|sx| |sx mx ex], y as [sy|sy| |sy my ey]; cbn [SFmul];
    rewrite ?(xorb_comm sx sy); try reflexivity.
  rewrite (Pos.mul_comm mx my), (Z.add_comm ex ey). reflexivity.
Qed.

Lemma add_comm (x y : spec_float) : Binary64.add x y = Binary64.add y x.
Proof.
  unfold Binary64.add.
  destruct x as [sx|sx| |sx mx ex], y as [sy|sy| |sy my ey]; cbn [SFadd];
    try reflexivity;
    try (destruct sx, sy; reflexivity).
  rewrite (Z.min_comm ex ey), Z.add_comm. reflexivity.
Qed.

(** The integer that stands for an infinity is clamped as the infinity
    is: to the last line, or to the first. *)
Lemma round_infinity_clamped (total : Z) (negative : bool) :
  1 <= total <= 2 ^ Binary64.emax ->
  Z.max 1 (Z.min total (Binary64.Math_round (S754_infinity negative)))
  = if negative then 1 else total.
Proof.
  intros H. cbn [Binary64.Math_round].
  assert (0 < 2 ^ Binary64.emax) by (apply Z.pow_pos_nonneg; discriminate || lia).
  destruct negative; lia.
Qed.

(** C3, as the code has it. For an input made of a sign, digits and
    [%], the resolved line is
    [Math.round(lines * (current / lines + sign * (magnitude / 100)))]
    with the conversions, the two quotients, the products and the sum
    each rounded to binary64, as the program computes them, and [go]
    moves the cursor to the start of that line, clamped into the
    document. *)
Theorem go_signed_percent
  (c0 : ascii) (d : jsstring) (view : EditorView) (startLine : Line) :
  isSign c0 = true -> digits d ->
  lineAt (doc (state view)) (head (main (selection (state view)))) = Some startLine ->
  let total := lines (doc (state view)) in
  let m := mkMatch (Some [c0]) (Some d) None (Some (str "%")) in
  let target :=
    Binary64.Math_round
      (Binary64.mul (Binary64.ofZ total)
         (Binary64.add
            (Binary64.div (Binary64.ofZ (number startLine)) (Binary64.ofZ total))
            (Binary64.mul (Binary64.ofZ (if code c0 =? 45 then -1 else 1))
               (Binary64.div (Binary64.ofZ (toNumber d)) (Binary64.ofZ 100))))) in
  exec (c0 :: d ++ str "%") = Some m
  /\ resolveLine m startLine total = target
  /\ exists docLine,
       line (doc (state view)) (Z.max 1 (Z.min total target)) = Some docLine
       /\ go (c0 :: d ++ str "%") view = Normal (Some (moveTo (from docLine))).
Proof.
  intros Hs Hd S total m target.
  assert (W : wellFormed m).
  { unfold wellFormed, m; cbn [sign ln cl percent].
    split; [|split; [|split]].
    - intros s [= <-]. eauto.
    - intros s [= <-]. assumption.
    - discriminate.
    - intros s [= <-]. eexists; split; reflexivity. }
  assert (E : exec (c0 :: d ++ str "%") = Some m) by apply (exec_complete m W).
  assert (T : resolveLine m startLine total = target).
  { unfold resolveLine.
    rewrite (given_ln m W), (given_percent m W), (given_sign m W).
    unfold m; cbn [sign ln cl percent andb].
    destruct Hd as [Nd _]. destruct d as [|c1 d']; [congruence|].
    cbn [truthy]. rewrite signFactor_char.
    unfold target.
    rewrite add_comm, (mul_comm (Binary64.ofZ (if code c0 =? 45 then -1 else 1))).
    reflexivity. }
  split; [exact E|]. split; [exact T|].
  destruct (go_dispatches view _ m startLine E S)
    as [docLine [L [_ [A [B [_ G]]]]]].
  fold total in L. rewrite T in L. exists docLine. split; [exact L|].
  rewrite G. unfold column, m; cbn [cl]. unfold lineLength.
  do 3 f_equal. lia.
Qed.

(** Scenario 4: ["-10%"] on line 40 of 200 lines resolves to line 20,
    whose start is offset 19 in the document of empty lines; the
    quotient 10/100 and the sum with 40/200 are rounded on the way. *)
Lemma go_signed_percent_witness :
  exec (str "-10%")
  = Some (mkMatch (Some (str "-")) (Some (str "10")) None (Some (str "%")))
  /\ resolveLine (mkMatch (Some (str "-")) (Some (str "10")) None (Some (str "%")))
       (mkLine 39 39 40 []) 200 = 20
  /\ go (str "-10%") Scenarios.line40of200 = Normal (Some (moveTo 19)).
Proof.
  destruct (go_signed_percent "-"%char (str "10") Scenarios.line40of200
              (mkLine 39 39 40 []))
    as [E [T [docLine [L G]]]].
  - reflexivity.
  - split; [discriminate|reflexivity].
  - vm_compute. reflexivity.
  - split; [exact E|]. split.
    + refine (eq_trans T _). vm_compute. reflexivity.
    + vm_compute in L. injection L as <-. exact G.
Defined.

(** C3 fails as stated, the formula read in exact arithmetic: on line 2
    of 6 lines, ["+25%"] asks for [6 * (2/6 + 25/100)], which is 3.5
    and rounds to 4; in binary64 the sum is a little less than 7/12,
    the product is 3.4999999999999996, and [go] moves to line 3. *)
Lemma go_signed_percent_not_exact :
  exec (str "+25%")
  = Some (mkMatch (Some (str "+")) (Some (str "25")) None (Some (str "%")))
  /\ Text.lineAt (Scenarios.emptyLines 6) 1 = Some (mkLine 1 1 2 [])
  /\ resolveLine (mkMatch (Some (str "+")) (Some (str "25")) None (Some (str "%")))
       (mkLine 1 1 2 []) 6 = 3
  /\ go (str "+25%") (Documents.cursorAt (Scenarios.emptyLines 6) 1)
     = Normal (Some (moveTo 2))
  /\ Text.line (Scenarios.emptyLines 6) 3 = Some (mkLine 2 2 3 [])
  /\ JS.Math_round (inject_Z 6 * (inject_Z 2 / inject_Z 6
                                  + inject_Z 1 * (inject_Z 25 / 100)))%Q = 4
  /\ resolveLine (mkMatch (Some (str "+")) (Some (str "25")) None (Some (str "%")))
       (mkLine 1 1 2 []) 6
     <> JS.Math_round (inject_Z 6 * (inject_Z 2 / inject_Z 6
                                     + inject_Z 1 * (inject_Z 25 / 100)))%Q.
Proof. vm_compute. repeat split; try reflexivity. discriminate. Qed.

(** [Math.round] off the integers: half of five lines is 2.5 and goes
    up to line 3; from line 1 of five, ["-50%"] gives -1.5, which goes
    up to -1 and is clamped to line 1; a magnitude of 400 digits
    overflows and is clamped to the last line. *)
Example percent_rounding :
  resolveLine (mkMatch None (Some (str "50")) None (Some (str "%")))
    (mkLine 0 0 1 []) 5 = 3
  /\ resolveLine (mkMatch (Some (str "-")) (Some (str "50")) None (Some (str "%")))
       (mkLine 0 0 1 []) 5 = -1
  /\ go (str "-50%") (Documents.cursorAt (Scenarios.emptyLines 5) 0)
     = Normal (Some (moveTo 0))
  /\ go (repeat "9"%char 400 ++ str "%")
       (Documents.cursorAt (Scenarios.emptyLines 5) 0)
     = Normal (Some (moveTo 4)).
Proof. vm_compute. repeat split; reflexivity. Qed.

End GotoLineFacts.

(** ** The scanner *)

Module SearchFacts.

Import SelectionMatch.

Section Scan.

Variable doc : Text.Text.
Variable query : jsstring.
Hypothesis query_truthy : truthy query = true.

Lemma query_length : 0 < JS.length query.
Proof.
  destruct query; [discriminate|]. unfold JS.length. cbn [List.length]. lia.
Qed.

(** Every step of the scan moves on, so fuel beyond the length of the
    range changes nothing. *)
Lemma scanFrom_fuel (fuel fuel' : nat) (pos to : Z) :
  (Z.to_nat (to - pos) < fuel)%nat -> (Z.to_nat (to - pos) < fuel')%nat ->
  scanFrom fuel doc query pos to = scanFrom fuel' doc query pos to.
Proof.
  pose proof query_length as Q.
  revert fuel' pos. induction fuel as [|fuel IH]; intros fuel' pos H H'; [lia|].
  destruct fuel' as [|fuel']; [lia|]. cbn [scanFrom].
  destruct (Z.ltb_spec to (pos + JS.length query)) as [L|L]; [reflexivity|].
  destruct (JS.eqb _ query).
  - f_equal. apply IH; lia.
  - apply IH; lia.
Qed.

(** The spans of the scan lie in the range, in order and apart, and
    hold the query. *)
Lemma scanFrom_spans (fuel : nat) (pos to : Z) (f t : Z) :
  In (f, t) (scanFrom fuel doc query pos to) ->
  pos <= f /\ t <= to /\ t = f + JS.length query
  /\ Text.sliceString doc f t = query.
Proof.
  pose proof query_length as Q.
  revert pos. induction fuel as [|fuel IH]; intros pos H; [destruct H|].
  cbn [scanFrom] in H.
  destruct (Z.ltb_spec to (pos + JS.length query)) as [L|L]; [destruct H|].
  unfold JS.eqb in H.
  destruct (list_eq_dec ascii_dec
              (Text.sliceString doc pos (pos + JS.length query)) query) as [E|E].
  - destruct H as [[= <- <-]|H]; [repeat split; auto; lia|].
    destruct (IH _ H) as [A [B [C D]]]. repeat split; auto; lia.
  - destruct (IH _ H) as [A [B [C D]]]. repeat split; auto; lia.
Qed.

End Scan.

Lemma SearchCursor_spans (doc : Text.Text) (query : jsstring) (from to f t : Z) :
  In (f, t) (SearchCursor doc query from to) ->
  from <= f /\ t <= to /\ f < t /\ Text.sliceString doc f t = query.
Proof.
  unfold SearchCursor. destruct (truthy query) eqn:Q; [|intros []].
  intros H. destruct (scanFrom_spans doc query Q _ _ _ _ _ H) as [A [B [C D]]].
  pose proof (query_length query Q). repeat split; auto; lia.
Qed.

End SearchFacts.

(** ** Match collection *)

Module CollectFacts.

Import SelectionMatch.

Section Pass.

Variable state : EditorState.
Variable conf : HighlightOptions.
Variable check : option Categorizer.
Variable range : SelectionRange.

Let count (deco : list DecoRange) : Z := Z.of_nat (List.length deco).

Lemma decorations_app (ms1 ms2 : list (Z * Z)) :
  decorations state check range (ms1 ++ ms2)
  = decorations state check range ms1 ++ decorations state check range ms2.
Proof. unfold decorations. apply flat_map_app. Qed.

(** The inner loop either gives up, and then there were too many
    decorations, or returns everything it was to push, and then it
    never saw too many. *)
Lemma scanMatches_spec (ms : list (Z * Z)) (deco : list DecoRange) :
  match scanMatches state conf check range ms deco with
  | Some d => d = deco ++ decorations state check range ms
              /\ (count d <= maxMatches conf \/ d = deco)
  | None => maxMatches conf < count (deco ++ decorations state check range ms)
  end.
Proof.
  revert deco. induction ms as [|[from to] rest IH]; intros deco.
  - cbn. rewrite app_nil_r. auto.
  - cbn [scanMatches decorations flat_map fst snd].
    fold (decorations state check range rest).
    destruct (accepted state check from to).
    + destruct (Z.gtb_spec (Z.of_nat (List.length (deco ++ decorate check range from to)))
                  (maxMatches conf)) as [G|G].
      * unfold count. rewrite app_assoc, (length_app (deco ++ _)). lia.
      * specialize (IH (deco ++ decorate check range from to)).
        destruct (scanMatches state conf check range rest
                    (deco ++ decorate check range from to)) as [d|].
        -- destruct IH as [E [L|L]].
           ++ rewrite <- app_assoc in E. auto.
           ++ rewrite <- app_assoc in E. split; [exact E|].
              left. unfold count. rewrite L. lia.
        -- rewrite <- app_assoc in IH. exact IH.
    + cbn [app]. apply IH.
Qed.

End Pass.

Section Parts.

Variable view : EditorView.
Variable check : option Categorizer.
Variable range : SelectionRange.
Variable query : jsstring.

Let st := Editor.state view.
Let conf := highlightConfig st.
Let count (deco : list DecoRange) : Z := Z.of_nat (List.length deco).
Let found (parts : list (Z * Z)) : list (Z * Z) :=
  flat_map (fun p => SearchCursor (doc st) query (fst p) (snd p)) parts.

Lemma scanParts_spec (parts : list (Z * Z)) (deco : list DecoRange) :
  match scanParts st conf check range query parts deco with
  | Some d => d = deco ++ decorations st check range (found parts)
              /\ (count d <= maxMatches conf \/ d = deco)
  | None => maxMatches conf
            < count (deco ++ decorations st check range (found parts))
  end.
Proof.
  revert deco. induction parts as [|[pfrom pto] rest IH]; intros deco.
  - cbn. rewrite app_nil_r. auto.
  - cbn [scanParts found flat_map fst snd]. fold (found rest).
    rewrite decorations_app.
    pose proof (scanMatches_spec st conf check range
                  (SearchCursor (doc st) query pfrom pto) deco) as M.
    destruct (scanMatches st conf check range
                (SearchCursor (doc st) query pfrom pto) deco) as [d1|].
    + destruct M as [E1 L1]. specialize (IH d1).
      destruct (scanParts st conf check range query rest d1) as [d|].
      * destruct IH as [E L]. subst d1. rewrite <- app_assoc in E.
        split; [exact E|]. destruct L as [L|L]; [auto|].
        rewrite L. destruct L1 as [L1|L1]; [auto|]. right. exact L1.
      * subst d1. rewrite <- app_assoc in IH. exact IH.
    + unfold count in *. rewrite !length_app in *. lia.
Qed.

(** The pass, in closed form: everything or nothing. *)
Lemma collect_all_or_nothing :
  collect view check range query
  = if count (decorations st check range (allMatches view query))
       >? maxMatches conf
    then Decoration_none
    else Decoration_set (decorations st check range (allMatches view query)).
Proof.
  unfold collect. fold st conf.
  pose proof (scanParts_spec (visibleRanges view) []) as S.
  change (found (visibleRanges view)) with (allMatches view query) in S.
  cbn [app] in S.
  destruct (scanParts st conf check range query (visibleRanges view) []) as [d|];
    destruct (Z.gtb_spec (count (decorations st check range (allMatches view query)))
                (maxMatches conf)) as [G|G]; try reflexivity.
  - destruct S as [E [L|L]]; [subst d; lia|exact L].
  - destruct S as [E _]. exact E.
  - lia.
Qed.

Lemma collect_subset (d : DecoRange) :
  In d (collect view check range query) ->
  In d (decorations st check range (allMatches view query)).
Proof.
  rewrite collect_all_or_nothing.
  destruct (_ >? _); [intros []|auto].
Qed.

End Parts.

(** What a decoration of the uncut pass comes from. *)
Lemma decorations_inv state check range ms (d : DecoRange) :
  In d (decorations state check range ms) ->
  In (from d, to d) ms /\ accepted state check (from d) (to d) = true
  /\ In d (decorate check range (from d) (to d)).
Proof.
  unfold decorations. rewrite in_flat_map. intros [[f t] [I D]].
  cbn [fst snd] in D. destruct (accepted state check f t) eqn:A; [|destruct D].
  assert (from d = f /\ to d = t) as [<- <-].
  { unfold decorate in D.
    repeat match type of D with
      | In _ (if ?b then _ else _) => destruct b
      | In _ [_] => destruct D as [<-|[]]; auto
      | In _ [] => destruct D
      end. }
  auto.
Qed.

End CollectFacts.

(** ** The cutoff and the whole-word test *)

Module HighlightFacts.

Import SelectionMatch CollectFacts.

(** C7. The pass returns every decoration of the visible ranges when
    there are at most [maxMatches] of them and the empty set when
    there are more, never a part of them; so a result of the pass, and
    of [getDeco], that is not empty has at most [maxMatches]
    decorations. *)
Theorem collect_cutoff
  (view : EditorView) (check : option Categorizer) (range : SelectionRange)
  (query : jsstring) :
  let all := decorations (state view) check range (allMatches view query) in
  let limit := maxMatches (highlightConfig (state view)) in
  collect view check range query
  = (if Z.of_nat (List.length all) >? limit
     then Decoration_none else Decoration_set all)
  /\ (collect view check range query = Decoration_none
      \/ Z.of_nat (List.length (collect view check range query)) <= limit)
  /\ match getDeco view with
     | Normal ds => ds = Decoration_none \/ Z.of_nat (List.length ds) <= limit
     | Throw => True
     end.
Proof.
  intros all limit.
  assert (G : forall c r q,
             collect view c r q = Decoration_none
             \/ Z.of_nat (List.length (collect view c r q)) <= limit).
  { intros c r q. rewrite collect_all_or_nothing.
    destruct (Z.gtb_spec
                (Z.of_nat (List.length
                   (decorations (state view) c r (allMatches view q))))
                (maxMatches (highlightConfig (state view)))) as [L|L];
      [left; reflexivity | right; exact L]. }
  split; [apply collect_all_or_nothing|]. split; [apply G|].
  unfold getDeco. destruct (chooseQuery view) as [[[q c]|]|]; cbn [bind].
  - apply G.
  - left; reflexivity.
  - exact I.
Qed.

(** C8. With a categorizer at hand, a decoration of the pass, main or
    regular, starts at the start of the document or after a character
    that is not a word character, and ends at the end of the document
    or before a character that is not a word character. *)
Theorem collect_whole_words
  (view : EditorView) (chk : Categorizer) (range : SelectionRange)
  (query : jsstring) (v : Decoration) (from to : Z) :
  In (mkDeco v from to) (collect view (Some chk) range query) ->
  (from = 0 \/ chk (sliceDoc (state view) (from - 1) from) <> Word)
  /\ (to = Text.length (doc (state view))
      \/ chk (sliceDoc (state view) to (to + 1)) <> Word).
Proof.
  intros H. apply collect_subset, decorations_inv in H as [_ [A _]].
  cbn [SelectionMatch.from SelectionMatch.to accepted] in A.
  apply andb_true_iff in A as [A B].
  apply orb_true_iff in A, B. split.
  - destruct A as [A|A]; [left; apply Z.eqb_eq; exact A|right].
    intros E. rewrite E in A. discriminate.
  - destruct B as [B|B]; [left; apply Z.eqb_eq; exact B|right].
    intros E. rewrite E in B. discriminate.
Qed.

Lemma collect_whole_words_witness :
  (8 = 0 \/ Scenarios.categorize
              (sliceDoc (state Scenarios.fooBarFooCursor) (8 - 1) 8) <> Word)
  /\ (11 = Text.length (doc (state Scenarios.fooBarFooCursor))
      \/ Scenarios.categorize
           (sliceDoc (state Scenarios.fooBarFooCursor) 11 (11 + 1)) <> Word).
Proof.
  apply (collect_whole_words Scenarios.fooBarFooCursor Scenarios.categorize
           (mkRange 9 9) (str "foo") mainMatchDeco 8 11).
  vm_compute. right; left; reflexivity.
Defined.

(** A match inside a longer word is not decorated: in ["foo foobar"]
    with the cursor in the first word, the [foo] of [foobar] is found
    and left alone. *)
Example foo_of_foobar_not_decorated :
  let view := Scenarios.viewOf (str "foo foobar") (Scenarios.single 1 1)
                (mkOptions true 1 100) in
  allMatches view (str "foo") = [(0, 3); (4, 7)]
  /\ getDeco view = Normal [mkDeco mainMatchDeco 0 3].
Proof. vm_compute. split; reflexivity. Qed.

End HighlightFacts.

(** ** The word around the cursor *)

Module WordFacts.

Import SelectionMatch TextFacts.

Section Loops.

Variable text : jsstring.
Variable check : jsstring -> CharCategory.

Lemma wordStart_bounds (fuel : nat) (from : Z) :
  0 <= from -> 0 <= wordStart fuel text check from <= from.
Proof.
  revert from. induction fuel as [|fuel IH]; intros from H; cbn [wordStart].
  - lia.
  - destruct (Z.ltb_spec 0 from) as [P|P]; [|lia].
    unfold findClusterBreak. destruct (Z.ltb_spec 0 from) as [_|]; [|lia].
    destruct (negb _); [lia|]. specialize (IH (from - 1)). lia.
Qed.

Lemma wordEnd_bounds (fuel : nat) (to : Z) :
  to <= JS.length text ->
  to <= wordEnd fuel text (JS.length text) check to <= JS.length text.
Proof.
  revert to. induction fuel as [|fuel IH]; intros to H; cbn [wordEnd].
  - lia.
  - destruct (Z.ltb_spec to (JS.length text)) as [P|P]; [|lia].
    unfold findClusterBreak. destruct (Z.ltb_spec to (JS.length text)) as [_|]; [|lia].
    destruct (negb _); [lia|]. specialize (IH (to + 1)). lia.
Qed.

(** With fuel for every code unit before [from], the first loop ends
    the way the [while] does: at the start of the line or by [break]. *)
Lemma wordStart_exits (fuel : nat) (from : Z) :
  from <= Z.of_nat fuel ->
  let r := wordStart fuel text check from in
  r <= 0 \/ isWord (check (slice text (r - 1) r)) = false.
Proof.
  revert from. induction fuel as [|fuel IH]; intros from H; cbn [wordStart].
  - left. lia.
  - destruct (Z.ltb_spec 0 from) as [P|P]; [|left; lia].
    unfold findClusterBreak. destruct (Z.ltb_spec 0 from) as [_|]; [|lia].
    destruct (isWord (check (slice text (from - 1) from))) eqn:E; cbn [negb].
    + apply IH. lia.
    + right. exact E.
Qed.

(** Likewise for the second loop: at the end of the line or by [break]. *)
Lemma wordEnd_exits (fuel : nat) (to : Z) :
  JS.length text - to <= Z.of_nat fuel ->
  let r := wordEnd fuel text (JS.length text) check to in
  JS.length text <= r \/ isWord (check (slice text r (r + 1))) = false.
Proof.
  revert to. induction fuel as [|fuel IH]; intros to H; cbn [wordEnd].
  - left. lia.
  - destruct (Z.ltb_spec to (JS.length text)) as [P|P]; [|left; lia].
    unfold findClusterBreak. destruct (Z.ltb_spec to (JS.length text)) as [_|]; [|lia].
    destruct (isWord (check (slice text to (to + 1)))) eqn:E; cbn [negb].
    + apply IH. lia.
    + right. exact E.
Qed.

End Loops.

Lemma slice_truthy (s : jsstring) (a b : Z) :
  0 <= a < b -> a < JS.length s -> truthy (slice s a b) = true.
Proof.
  intros H L. unfold slice, JS.length in *.
  destruct (skipn (Z.to_nat a) s) as [|c r] eqn:E.
  - apply (f_equal (@List.length ascii)) in E. rewrite length_skipn in E.
    cbn in E. lia.
  - destruct (Z.to_nat (b - a)) eqn:N; [lia|reflexivity].
Qed.

(** The word [wordAt] returns is a slice of the line of [pos] around
    [pos], and is not empty. *)
Lemma wordAt_some (doc : Text.Text) (pos : Z) (check : jsstring -> CharCategory)
  (w : jsstring) :
  wordAt doc pos check = Normal (Some w) ->
  truthy w = true
  /\ exists line from to,
       Text.lineAt doc pos = Some line
       /\ w = slice (Text.text line) from to
       /\ 0 <= from <= pos - Text.from line
       /\ pos - Text.from line <= to <= JS.length (Text.text line)
       /\ from < to.
Proof.
  unfold wordAt. destruct (Text.lineAt doc pos) as [line|] eqn:L;
    cbn [ofOption bind]; [|discriminate].
  destruct (lineAt_line _ _ _ L) as [_ [_ [A [B [C [D E]]]]]].
  pose proof (wordStart_bounds (Text.text line) check
                (List.length (Text.text line)) (pos - Text.from line)) as S.
  pose proof (wordEnd_bounds (Text.text line) check
                (List.length (Text.text line)) (pos - Text.from line)) as T.
  replace (Text.lineLength line) with (JS.length (Text.text line))
    by (unfold Text.lineLength; lia).
  destruct (Z.eqb_spec
              (wordStart (List.length (Text.text line)) (Text.text line) check
                 (pos - Text.from line))
              (wordEnd (List.length (Text.text line)) (Text.text line)
                 (JS.length (Text.text line)) check
                 (pos - Text.from line))) as [Q|Q]; [discriminate|].
  intros [= <-]. split.
  - apply slice_truthy; lia.
  - exists line. eexists. eexists. split; [reflexivity|].
    split; [reflexivity|]. lia.
Qed.

(** The fuel [wordAt] gives its loops is enough: both end the way the
    [while] loops do. *)
Lemma wordAt_loops_exit (doc : Text.Text) (pos : Z)
  (check : jsstring -> CharCategory) (line : Text.Line) :
  Text.lineAt doc pos = Some line ->
  let text := Text.text line in
  let from := wordStart (List.length text) text check (pos - Text.from line) in
  let to := wordEnd (List.length text) text (Text.lineLength line) check
              (pos - Text.from line) in
  (from <= 0 \/ isWord (check (slice text (from - 1) from)) = false)
  /\ (Text.lineLength line <= to
      \/ isWord (check (slice text to (to + 1))) = false).
Proof.
  intros L text from to.
  destruct (lineAt_line _ _ _ L) as [_ [_ [A [B [C [D E]]]]]].
  assert (N : Text.lineLength line = JS.length text)
    by (unfold Text.lineLength, text; lia).
  split.
  - apply wordStart_exits. unfold JS.length, text in *. lia.
  - unfold to. rewrite N. apply wordEnd_exits. unfold JS.length, text in *. lia.
Qed.

End WordFacts.

(** ** The choice of the query *)

Module QueryFacts.

Import SelectionMatch CollectFacts WordFacts.

Lemma highlighted_getDeco (view : EditorView) (query : jsstring)
  (check : option Categorizer) :
  chooseQuery view = Normal (Some (query, check)) ->
  getDeco view
  = Normal (collect view check (main (selection (state view))) query).
Proof. intros H. unfold getDeco. rewrite H. reflexivity. Qed.

(** C10. With a single empty cursor and [highlightWordAroundCursor]
    set, the word [wordAt] finds is the query, whatever its length and
    whatever [minSelectionLength] is: the lower bound and the bound of
    200 are not applied to it. *)
Theorem cursor_word_any_length
  (doc : Text.Text) (pos : Z) (categorizer : Z -> Categorizer) (dialog : bool)
  (visible : list (Z * Z)) (minLength limit : Z) (w : jsstring) :
  let view :=
    mkView (mkState doc (mkSelection [mkRange pos pos] 0)
              (mkOptions true minLength limit) categorizer dialog) visible in
  wordAt doc pos (categorizer pos) = Normal (Some w) ->
  chooseQuery view = Normal (Some (w, Some (categorizer pos)))
  /\ highlighted view
  /\ getDeco view
     = Normal (collect view (Some (categorizer pos)) (mkRange pos pos) w).
Proof.
  intros view H.
  assert (Q : chooseQuery view = Normal (Some (w, Some (categorizer pos)))).
  { unfold chooseQuery, view. cbn -[wordAt truthy].
    unfold Editor.empty, Editor.from, Editor.to. cbn [anchor head].
    rewrite Z.min_id, Z.max_id, Z.eqb_refl. rewrite H. cbn [bind].
    destruct (wordAt_some _ _ _ _ H) as [T _]. rewrite T. reflexivity. }
  split; [exact Q|]. split; [exists w, (Some (categorizer pos)); exact Q|].
  apply (highlighted_getDeco view _ _ Q).
Qed.

(** A word of three letters under a minimum selection length of 5. *)
Lemma cursor_word_any_length_witness :
  wordAt (str "foo bar foo") 9 Scenarios.categorize = Normal (Some (str "foo"))
  /\ getDeco Scenarios.fooBarFooCursorMin5
     = Normal [mkDeco matchDeco 0 3; mkDeco mainMatchDeco 8 11].
Proof.
  split; [reflexivity|].
  destruct (cursor_word_any_length (str "foo bar foo") 9
              (fun _ => Scenarios.categorize) true [(0, 11)] 5 100 (str "foo"))
    as [_ [_ G]].
  - reflexivity.
  - refine (eq_trans G _). vm_compute. reflexivity.
Defined.

(** A word of 201 letters around the cursor is a query all the same. *)
Example cursor_word_of_201_letters :
  let view := Scenarios.viewOf (Scenarios.twice 201) (Scenarios.single 0 0)
                (mkOptions true 1 100) in
  getDeco view = Normal [mkDeco mainMatchDeco 0 201; mkDeco matchDeco 202 403].
Proof. vm_compute. reflexivity. Qed.





(** The boundaries: a selection one character shorter than
    [minSelectionLength] is not highlighted, one of 200 characters is,
    one of 201 is not. *)
Example selection_shorter_than_minimum :
  ~ highlighted (Scenarios.selectPrefix (str "ab ab") 1 2)
  /\ getDeco (Scenarios.selectPrefix (str "ab ab") 1 2) = Normal Decoration_none.
Proof.
  split; [|reflexivity]. intros [q [c F]]. vm_compute in F. discriminate.
Qed.

Example selection_of_200 :
  highlighted (Scenarios.selectPrefix (Scenarios.twice 200) 200 1)
  /\ getDeco (Scenarios.selectPrefix (Scenarios.twice 200) 200 1)
     = Normal [mkDeco matchDeco 201 401].
Proof.
  split; [|vm_compute; reflexivity].
  exists (repeat "a"%char 200), None. vm_compute. reflexivity.
Qed.

Example selection_of_201 :
  ~ highlighted (Scenarios.selectPrefix (Scenarios.twice 201) 201 1)
  /\ getDeco (Scenarios.selectPrefix (Scenarios.twice 201) 201 1)
     = Normal Decoration_none.
Proof.
  split; [|vm_compute; reflexivity]. intros [q [c F]]. vm_compute in F. discriminate.
Qed.

End QueryFacts.

(** ** Scenario 1 and the view plugin *)

Module ScenarioFacts.

Import SelectionMatch.

(** C1 fails as stated: with the second [foo] of ["foo bar foo"]
    selected, [getDeco] runs without a categorizer and decorates the
    first [foo] only; the match on the selection itself is neither
    before nor after the selection and is skipped. *)
Lemma scenario1_selection_not_decorated :
  chooseQuery Scenarios.fooBarFoo = Normal (Some (str "foo", None))
  /\ allMatches Scenarios.fooBarFoo (str "foo") = [(0, 3); (8, 11)]
  /\ getDeco Scenarios.fooBarFoo = Normal [mkDeco matchDeco 0 3]
  /\ getDeco Scenarios.fooBarFoo
     <> Normal [mkDeco matchDeco 0 3; mkDeco matchDeco 8 11]
  /\ ~ In (mkDeco matchDeco 8 11)
         (collect Scenarios.fooBarFoo None (mkRange 8 11) (str "foo")).
Proof.
  repeat (split; [reflexivity|]). split; [discriminate|].
  vm_compute. intros [H|[]]. discriminate H.
Qed.

(** C1, as the code has it. For ["foo bar foo"] with [[8,11)] selected
    and [minSelectionLength = 1]: [getDeco] collects without a
    categorizer and the result is the regular decoration of [[0,3)]
    alone; the pass run with a categorizer that does not take the space
    for a word character gives the regular decoration of [[0,3)] and
    the main decoration of [[8,11)]. *)
Theorem scenario1_decorations (chk : Categorizer) :
  chk (str " ") <> Word ->
  getDeco Scenarios.fooBarFoo = Normal [mkDeco matchDeco 0 3]
  /\ collect Scenarios.fooBarFoo None (mkRange 8 11) (str "foo")
     = [mkDeco matchDeco 0 3]
  /\ collect Scenarios.fooBarFoo (Some chk) (mkRange 8 11) (str "foo")
     = [mkDeco matchDeco 0 3; mkDeco mainMatchDeco 8 11].
Proof.
  intros H. split; [reflexivity|]. split; [reflexivity|].
  vm_compute in H. vm_compute.
  destruct (chk _); [exfalso; apply H; reflexivity| |]; reflexivity.
Qed.

Lemma scenario1_decorations_witness :
  Scenarios.categorize (str " ") <> Word
  /\ collect Scenarios.fooBarFoo (Some Scenarios.categorize) (mkRange 8 11)
       (str "foo")
     = [mkDeco matchDeco 0 3; mkDeco mainMatchDeco 8 11].
Proof.
  assert (H : Scenarios.categorize (str " ") <> Word) by discriminate.
  split; [exact H|].
  exact (proj2 (proj2 (scenario1_decorations Scenarios.categorize H))).
Defined.

(** In the mode that has a categorizer, the cursor inside the second
    [foo], [getDeco] itself gives the two decorations. *)
Example scenario1_cursor_in_word :
  getDeco Scenarios.fooBarFooCursor
  = Normal [mkDeco matchDeco 0 3; mkDeco mainMatchDeco 8 11].
Proof. reflexivity. Qed.

End ScenarioFacts.

(** * Further properties of the goto-line dialog *)

Module GotoLineMore.

Import Text GotoLine GrammarFacts TextFacts GotoLineFacts.

(** A line of the table is the line of each of its positions. *)
Lemma lineTable_find_nth (ls : list jsstring) (start n pos : Z) (k : nat) (L : Line) :
  nth_error (lineTable ls start n) k = Some L ->
  from L <= pos <= to L ->
  find (fun l => pos <=? to l) (lineTable ls start n) = Some L.
Proof.
  revert start n k. induction ls as [|l rest IH]; intros start n k N B.
  - destruct k; discriminate.
  - cbn [lineTable find to]. destruct k as [|k]; cbn [nth_error lineTable] in N.
    + injection N as <-. cbn [from to] in B.
      destruct (Z.leb_spec pos (start + JS.length l)); [reflexivity|lia].
    + pose proof (lineTable_nth _ _ _ _ _ N) as [A _].
      destruct (Z.leb_spec pos (start + JS.length l)); [lia|].
      apply (IH _ _ k); assumption.
Qed.

Lemma lineAt_of_line (doc : Text) (n pos : Z) (L : Line) :
  line doc n = Some L -> from L <= pos <= to L -> lineAt doc pos = Some L.
Proof.
  unfold line. destruct ((n <? 1) || (lines doc <? n)); [discriminate|].
  intros N B. destruct (allLines_nth _ _ _ N) as [_ [_ [A [_ [C _]]]]].
  unfold lineAt.
  replace ((pos <? 0) || (length doc <? pos)) with false
    by (symmetry; apply orb_false_intro; apply Z.ltb_ge; lia).
  apply (lineTable_find_nth _ _ _ _ _ _ N B).
Qed.

Lemma toNumber_acc_nonneg (s : jsstring) (acc : Z) :
  forallb isDigit s = true -> 0 <= acc ->
  0 <= fold_left (fun acc c => 10 * acc + (code c - 48)) s acc.
Proof.
  revert acc. induction s as [|c s IH]; intros acc D A; cbn [fold_left].
  - exact A.
  - cbn [forallb] in D. apply andb_true_iff in D as [Dc D].
    apply IH; [exact D|]. unfold isDigit in Dc.
    apply andb_true_iff in Dc as [Lo _]. apply Z.leb_le in Lo. lia.
Qed.

Lemma toNumber_nonneg (s : jsstring) : digits s -> 0 <= toNumber s.
Proof. intros [_ D]. apply toNumber_acc_nonneg; [exact D|lia]. Qed.

Lemma column_nonneg (m : RegExpMatch) : wellFormed m -> 0 <= column m.
Proof.
  intros [_ [_ [H _]]]. unfold column. destruct (cl m) as [c|]; [|lia].
  destruct (H c eq_refl) as [c0 [d [-> [_ D]]]]. cbn [truthy].
  unfold sliceFrom. cbn. apply toNumber_nonneg. exact D.
Qed.

(** What a dispatching run of [go] went through. *)
Lemma go_inv (input : jsstring) (view : EditorView) (tr : TransactionSpec) :
  go input view = Normal (Some tr) ->
  exists m startLine docLine,
    exec input = Some m
    /\ lineAt (doc (state view)) (head (main (selection (state view))))
       = Some startLine
    /\ line (doc (state view))
         (Z.max 1 (Z.min (lines (doc (state view)))
                     (resolveLine m startLine (lines (doc (state view))))))
       = Some docLine
    /\ tr = moveTo (from docLine
                    + Z.max 0 (Z.min (column m) (lineLength docLine))).
Proof.
  unfold go. destruct (exec input) as [m|]; [|discriminate].
  destruct (lineAt _ _) as [startLine|]; cbn [ofOption bind]; [|discriminate].
  destruct (line _ _) as [docLine|] eqn:L; cbn [ofOption bind]; [|discriminate].
  intros [= <-]. exists m, startLine, docLine. auto.
Qed.

(** The cursor [go] sets is on the line it looked up. *)
Lemma target_position (doc : Text) (n col : Z) (docLine : Line) :
  line doc n = Some docLine -> 0 <= col ->
  let pos := from docLine + Z.max 0 (Z.min col (lineLength docLine)) in
  pos = from docLine + Z.min col (lineLength docLine)
  /\ lineAt doc pos = Some docLine.
Proof.
  intros L C pos.
  assert (B : from docLine <= to docLine).
  { unfold line in L. destruct ((n <? 1) || (lines doc <? n)); [discriminate|].
    apply allLines_nth in L. lia. }
  unfold pos, lineLength. split; [lia|].
  apply (lineAt_of_line doc n); [exact L|lia].
Qed.

(** X1. The groups of a match are a decomposition of the input into
    sign, digits, colon with digits and percent sign, and the only
    one: [exec] returns [m] exactly when [m] is well formed and its
    groups, put together, are the input. *)
Theorem exec_round_trip (input : jsstring) (m : RegExpMatch) :
  exec input = Some m <-> wellFormed m /\ input = render m.
Proof.
  split.
  - apply exec_sound.
  - intros [W ->]. apply exec_complete. exact W.
Qed.

(** X5. For an input of the language, the cursor [go] sets lies on the
    line it looked up, the clamped target line: the column never
    carries it into another line, and the lower clamp of the column is
    never needed. *)
Theorem go_lands_on_target_line (input : jsstring) (view : EditorView) :
  matchesGrammar input ->
  0 <= head (main (selection (state view))) <= length (doc (state view)) ->
  exists m startLine docLine pos,
    exec input = Some m
    /\ lineAt (doc (state view)) (head (main (selection (state view))))
       = Some startLine
    /\ go input view = Normal (Some (moveTo pos))
    /\ lineAt (doc (state view)) pos = Some docLine
    /\ number docLine
       = Z.max 1 (Z.min (lines (doc (state view)))
                    (resolveLine m startLine (lines (doc (state view)))))
    /\ pos = from docLine + Z.min (column m) (lineLength docLine).
Proof.
  intros G R. apply exec_matchesGrammar in G as [m E].
  destruct (lineAt_defined _ _ R) as [k [startLine [S _]]].
  destruct (go_dispatches view input m startLine E S)
    as [docLine [L [N [_ [_ [_ D]]]]]].
  pose proof (proj1 (exec_sound _ _ E)) as W.
  destruct (target_position _ _ _ _ L (column_nonneg m W)) as [P Q].
  exists m, startLine, docLine. eexists.
  repeat (split; [eassumption|]). exact P.
Qed.

Lemma go_lands_on_target_line_witness :
  exists m startLine docLine pos,
    exec (str "2:9") = Some m
    /\ lineAt Documents.threeLines 0 = Some startLine
    /\ go (str "2:9") (Documents.cursorAt Documents.threeLines 0)
       = Normal (Some (moveTo pos))
    /\ lineAt Documents.threeLines pos = Some docLine
    /\ number docLine
       = Z.max 1 (Z.min (lines Documents.threeLines)
                    (resolveLine m startLine (lines Documents.threeLines)))
    /\ pos = from docLine + Z.min (column m) (lineLength docLine).
Proof.
  apply (go_lands_on_target_line (str "2:9")
           (Documents.cursorAt Documents.threeLines 0)).
  - apply exec_matchesGrammar. eexists. reflexivity.
  - vm_compute. split; discriminate.
Defined.

(** The line [2:9] leads to: the end of [cdef], offset 7. *)
Example go_2_9_on_three_lines :
  go (str "2:9") (Documents.cursorAt Documents.threeLines 0)
  = Normal (Some (moveTo 7)).
Proof. reflexivity. Qed.

Lemma exec_round_trip_witness :
  exec (str "+12:5%")
  = Some (mkMatch (Some (str "+")) (Some (str "12")) (Some (str ":5"))
            (Some (str "%")))
  <-> wellFormed (mkMatch (Some (str "+")) (Some (str "12")) (Some (str ":5"))
                    (Some (str "%")))
      /\ str "+12:5%"
         = render (mkMatch (Some (str "+")) (Some (str "12")) (Some (str ":5"))
                     (Some (str "%"))).
Proof. apply exec_round_trip. Defined.

(** [go] dispatches to the clamped value of [line], whatever branch
    computed it. *)
Lemma go_to_line (m : RegExpMatch) (view : EditorView) (startLine : Line) (t : Z) :
  wellFormed m ->
  lineAt (doc (state view)) (head (main (selection (state view)))) = Some startLine ->
  resolveLine m startLine (lines (doc (state view))) = t ->
  exists docLine,
    line (doc (state view)) (Z.max 1 (Z.min (lines (doc (state view))) t))
    = Some docLine
    /\ number docLine = Z.max 1 (Z.min (lines (doc (state view))) t)
    /\ lineAt (doc (state view))
         (from docLine + Z.min (column m) (lineLength docLine))
       = Some docLine
    /\ go (render m) view
       = Normal (Some (moveTo (from docLine
                               + Z.min (column m) (lineLength docLine)))).
Proof.
  intros W S T.
  destruct (go_dispatches view (render m) m startLine (exec_complete m W) S)
    as [docLine [L [N [_ [_ [_ G]]]]]].
  rewrite T in L, N.
  destruct (target_position _ _ _ _ L (column_nonneg m W)) as [P Q].
  rewrite P in G, Q. exists docLine. auto.
Qed.

(** X2. An input of digits, with or without a column, goes to the line
    of that number, clamped into the document, wherever the cursor
    was: [0] goes to the first line, a number beyond the last line to
    the last. *)
Theorem go_absolute_line
  (m : RegExpMatch) (d : jsstring) (view : EditorView) (startLine : Line) :
  wellFormed m -> sign m = None -> ln m = Some d -> percent m = None ->
  lineAt (doc (state view)) (head (main (selection (state view)))) = Some startLine ->
  let n := Z.max 1 (Z.min (lines (doc (state view))) (toNumber d)) in
  exists docLine,
    line (doc (state view)) n = Some docLine /\ number docLine = n
    /\ go (render m) view
       = Normal (Some (moveTo (from docLine
                               + Z.min (column m) (lineLength docLine)))).
Proof.
  intros W Hs Hl Hp S n.
  destruct (go_to_line m view startLine (toNumber d) W S)
    as [docLine [L [N [_ G]]]].
  - pose proof W as [_ [D _]]. destruct (D d Hl) as [Nd _].
    unfold resolveLine.
    rewrite (given_ln m W), (given_percent m W), (given_sign m W), Hl, Hp, Hs.
    destruct d; [congruence|]. reflexivity.
  - exists docLine. auto.
Qed.

(** Scenario 5 on three lines: [12:5] goes to the last line, whose
    only character leaves offset 9 for column 5. *)
Lemma go_absolute_line_witness :
  exists docLine,
    line Documents.threeLines (Z.max 1 (Z.min 3 12)) = Some docLine
    /\ number docLine = 3
    /\ go (str "12:5") (Documents.cursorAt Documents.threeLines 0)
       = Normal (Some (moveTo 9)).
Proof.
  destruct (go_absolute_line
              (mkMatch None (Some (str "12")) (Some (str ":5")) None)
              (str "12") (Documents.cursorAt Documents.threeLines 0)
              (mkLine 0 2 1 (str "ab")))
    as [docLine [L [N G]]].
  - apply (exec_sound (str "12:5")). reflexivity.
  - reflexivity.
  - reflexivity.
  - reflexivity.
  - reflexivity.
  - exists docLine. split; [exact L|]. split; [exact N|].
    vm_compute in L. injection L as <-. exact G.
Defined.

(** The branch of [go] for a sign and digits. *)
Lemma go_relative
  (m : RegExpMatch) (c0 : ascii) (d : jsstring) (view : EditorView)
  (startLine : Line) :
  wellFormed m -> sign m = Some [c0] -> ln m = Some d -> percent m = None ->
  lineAt (doc (state view)) (head (main (selection (state view)))) = Some startLine ->
  let n := Z.max 1 (Z.min (lines (doc (state view)))
                      (number startLine
                       + (if code c0 =? 45 then - toNumber d else toNumber d))) in
  exists docLine,
    line (doc (state view)) n = Some docLine /\ number docLine = n
    /\ go (render m) view
       = Normal (Some (moveTo (from docLine
                               + Z.min (column m) (lineLength docLine)))).
Proof.
  intros W Hs Hl Hp S n.
  destruct (go_to_line m view startLine
              (number startLine
               + (if code c0 =? 45 then - toNumber d else toNumber d)) W S)
    as [docLine [L [N [_ G]]]].
  - pose proof W as [_ [D _]]. destruct (D d Hl) as [Nd _].
    unfold resolveLine.
    rewrite (given_ln m W), (given_percent m W), (given_sign m W), Hl, Hp, Hs.
    destruct d as [|c1 d']; [congruence|]. cbn [andb truthy].
    rewrite signFactor_char. destruct (code c0 =? 45); lia.
  - exists docLine. auto.
Qed.

(** X3. A sign and digits move by that many lines from the line of the
    cursor, down for [+] and up for [-], the result clamped into the
    document. *)
Theorem go_relative_line
  (m : RegExpMatch) (c0 : ascii) (d : jsstring) (view : EditorView)
  (startLine : Line) :
  wellFormed m -> sign m = Some [c0] -> ln m = Some d -> percent m = None ->
  lineAt (doc (state view)) (head (main (selection (state view)))) = Some startLine ->
  let n := Z.max 1 (Z.min (lines (doc (state view)))
                      (number startLine
                       + (if code c0 =? 45 then - toNumber d else toNumber d))) in
  exists docLine,
    line (doc (state view)) n = Some docLine /\ number docLine = n
    /\ go (render m) view
       = Normal (Some (moveTo (from docLine
                               + Z.min (column m) (lineLength docLine)))).
Proof. exact (go_relative m c0 d view startLine). Qed.

(** Scenario 2, in small: [+1] from the first of three lines. *)
Lemma go_relative_line_witness :
  exists docLine,
    line Documents.threeLines 2 = Some docLine
    /\ go (str "+1") (Documents.cursorAt Documents.threeLines 1)
       = Normal (Some (moveTo 3)).
Proof.
  destruct (go_relative_line
              (mkMatch (Some (str "+")) (Some (str "1")) None None)
              "+"%char (str "1") (Documents.cursorAt Documents.threeLines 1)
              (mkLine 0 2 1 (str "ab")))
    as [docLine [L [N G]]].
  - apply (exec_sound (str "+1")). reflexivity.
  - reflexivity.
  - reflexivity.
  - reflexivity.
  - reflexivity.
  - exists docLine. split; [exact L|].
    vm_compute in L. injection L as <-. exact G.
Defined.

(** X4. Digits and [%] without a sign go to the line
    [Math.round(lines * (magnitude / 100))], the quotient and the
    product rounded to binary64 as the program computes them, clamped
    into the document, wherever the cursor was. *)
Theorem go_absolute_percent
  (m : RegExpMatch) (d p : jsstring) (view : EditorView) (startLine : Line) :
  wellFormed m -> sign m = None -> ln m = Some d -> percent m = Some p ->
  lineAt (doc (state view)) (head (main (selection (state view)))) = Some startLine ->
  let total := lines (doc (state view)) in
  let n := Z.max 1 (Z.min total
                      (Binary64.Math_round
                         (Binary64.mul (Binary64.ofZ total)
                            (Binary64.div (Binary64.ofZ (toNumber d))
                               (Binary64.ofZ 100))))) in
  exists docLine,
    line (doc (state view)) n = Some docLine /\ number docLine = n
    /\ go (render m) view
       = Normal (Some (moveTo (from docLine
                               + Z.min (column m) (lineLength docLine)))).
Proof.
  intros W Hs Hl Hp S total n.
  destruct (go_to_line m view startLine
              (Binary64.Math_round
                 (Binary64.mul (Binary64.ofZ total)
                    (Binary64.div (Binary64.ofZ (toNumber d))
                       (Binary64.ofZ 100)))) W S)
    as [docLine [L [N [_ G]]]].
  - pose proof W as [_ [D _]]. destruct (D d Hl) as [Nd _].
    unfold resolveLine.
    rewrite (given_ln m W), (given_percent m W), (given_sign m W), Hl, Hp, Hs.
    destruct d as [|c1 d']; [congruence|]. reflexivity.
  - exists docLine. auto.
Qed.

(** Scenario 3: [50%] of 200 lines is line 100, offset 99 in the
    document of empty lines. *)
Lemma go_absolute_percent_witness :
  exists docLine,
    line (Scenarios.emptyLines 200) 100 = Some docLine
    /\ go (str "50%") Scenarios.line40of200 = Normal (Some (moveTo 99)).
Proof.
  destruct (go_absolute_percent
              (mkMatch None (Some (str "50")) None (Some (str "%")))
              (str "50") (str "%") Scenarios.line40of200 (mkLine 39 39 40 []))
    as [docLine [L [N G]]].
  - apply (exec_sound (str "50%")). reflexivity.
  - reflexivity.
  - reflexivity.
  - reflexivity.
  - vm_compute. reflexivity.
  - exists docLine. split; [exact L|].
    vm_compute in L. injection L as <-. exact G.
Defined.

(** In binary64 [58%] of 25 lines is 14.499999999999998, line 14,
    where the exact product 14.5 would round to 15. *)
Example go_58_percent_of_25 :
  go (str "58%") (Documents.cursorAt (Scenarios.emptyLines 25) 0)
  = Normal (Some (moveTo 13))
  /\ JS.Math_round (inject_Z 25 * (inject_Z 58 / 100))%Q = 15.
Proof. vm_compute. split; reflexivity. Qed.

End GotoLineMore.

(** * Runs of [go] one after another, and the dialog *)

Module GotoLineCompose.

Import Text GotoLine GrammarFacts TextFacts GotoLineFacts GotoLineMore.

Lemma afterGo_dispatch (input : jsstring) (view : EditorView) (tr : TransactionSpec) :
  go input view = Normal (Some tr) -> afterGo input view = Normal (dispatch view tr).
Proof. intros H. unfold afterGo. rewrite H. reflexivity. Qed.

(** A matching input is never answered by the early [return]. *)
Lemma go_matched (input : jsstring) (view : EditorView) (m : RegExpMatch) :
  exec input = Some m -> go input view <> Normal None.
Proof.
  intros E. unfold go. rewrite E.
  destruct (lineAt _ _); cbn [ofOption bind]; [|discriminate].
  destruct (line _ _); cbn [ofOption bind]; discriminate.
Qed.

Lemma dispatch_moveTo_twice (view : EditorView) (p q : Z) :
  dispatch (dispatch view (moveTo p)) (moveTo q) = dispatch view (moveTo q).
Proof. reflexivity. Qed.

(** Without a sign in front of digits, the line does not depend on
    where the cursor is. *)
Lemma resolveLine_unsigned (m : RegExpMatch) (d : jsstring) (L1 L2 : Line) (n : Z) :
  wellFormed m -> sign m = None -> ln m = Some d ->
  resolveLine m L1 n = resolveLine m L2 n.
Proof.
  intros W Hs Hl. pose proof W as [_ [D _]]. destruct (D d Hl) as [Nd _].
  unfold resolveLine. rewrite (given_ln m W), (given_sign m W), Hl, Hs.
  destruct d; [congruence|]. cbn [truthy andb].
  destruct (given (percent m)); reflexivity.
Qed.

(** X6. Unless the input has both a sign and digits, running [go]
    again on its own result changes nothing: the second run leaves the
    view the first run made. *)
Theorem go_idempotent_unless_relative (m : RegExpMatch) (view v1 : EditorView) :
  wellFormed m -> sign m = None \/ ln m = None ->
  afterGo (render m) view = Normal v1 ->
  afterGo (render m) v1 = Normal v1.
Proof.
  intros W A H. pose proof (exec_complete m W) as E.
  unfold afterGo in H.
  destruct (go (render m) view) as [[tr|]|] eqn:G; cbn [bind] in H;
    [|exfalso; exact (go_matched _ _ _ E G)|discriminate].
  injection H as <-.
  destruct (go_inv _ _ _ G) as [m' [startLine [docLine [E' [S [L ->]]]]]].
  assert (m' = m) by congruence. subst m'.
  destruct (target_position _ _ _ _ L (column_nonneg m W)) as [_ Q].
  set (pos := from docLine + Z.max 0 (Z.min (column m) (lineLength docLine))) in *.
  assert (R : resolveLine m docLine (lines (doc (state view)))
              = resolveLine m startLine (lines (doc (state view)))
              \/ (ln m = None /\ docLine = startLine)).
  { destruct (ln m) as [d|] eqn:Hl.
    - left. destruct A as [Hs|]; [|discriminate].
      apply (resolveLine_unsigned m d); assumption.
    - right. split; [reflexivity|].
      rewrite (resolveLine_no_ln m startLine _ Hl) in L.
      destruct (lineAt_line _ _ _ S) as [L' [B _]].
      replace (Z.max 1 (Z.min (lines (doc (state view))) (number startLine)))
        with (number startLine) in L by lia.
      congruence. }
  assert (G1 : go (render m) (dispatch view (moveTo pos))
               = Normal (Some (moveTo pos))).
  { destruct (go_dispatches (dispatch view (moveTo pos)) (render m) m docLine E Q)
      as [docLine' [L1 [_ [_ [_ [_ G1]]]]]].
    cbn [dispatch state doc] in L1.
    assert (docLine' = docLine).
    { destruct R as [R|[Hl ->]].
      - rewrite R in L1. congruence.
      - congruence. }
    subst docLine'. exact G1. }
  rewrite (afterGo_dispatch _ _ _ G1). rewrite dispatch_moveTo_twice. reflexivity.
Qed.

Lemma go_idempotent_unless_relative_witness :
  afterGo (str "2:9")
    (dispatch (Documents.cursorAt Documents.threeLines 0) (moveTo 7))
  = Normal (dispatch (Documents.cursorAt Documents.threeLines 0) (moveTo 7)).
Proof.
  apply (go_idempotent_unless_relative
           (mkMatch None (Some (str "2")) (Some (str ":9")) None)
           (Documents.cursorAt Documents.threeLines 0)).
  - apply (exec_sound (str "2:9")). reflexivity.
  - left. reflexivity.
  - reflexivity.
Defined.

(** With a sign the second run moves on: [+1] twice from the first of
    three lines ends on the third. *)
Example go_relative_not_idempotent :
  afterGo (str "+1") (Documents.cursorAt Documents.threeLines 0)
  = Normal (dispatch (Documents.cursorAt Documents.threeLines 0) (moveTo 3))
  /\ afterGo (str "+1")
       (dispatch (Documents.cursorAt Documents.threeLines 0) (moveTo 3))
     = Normal (dispatch (Documents.cursorAt Documents.threeLines 0) (moveTo 8)).
Proof. split; reflexivity. Qed.

End GotoLineCompose.

Module GotoLineRoundTrip.

Import Text GotoLine GrammarFacts TextFacts GotoLineFacts GotoLineMore
  GotoLineCompose.

Lemma signed_wellFormed (c : ascii) (d : jsstring) :
  isSign c = true -> digits d ->
  wellFormed (mkMatch (Some [c]) (Some d) None None)
  /\ render (mkMatch (Some [c]) (Some d) None None) = c :: d.
Proof.
  intros C D. split.
  - unfold wellFormed; cbn [sign ln cl percent].
    split; [|split; [|split]]; try discriminate.
    + intros s [= <-]. eauto.
    + intros s [= <-]. exact D.
  - unfold render; cbn [sign ln cl percent opt app]. rewrite app_nil_r.
    reflexivity.
Qed.

(** X7. A relative move and the opposite one cancel: when [c0] with the
    digits [d] stays inside the document, the other sign with the same
    digits leads back to the line the cursor started on, at column 0. *)
Theorem go_relative_round_trip
  (c0 c1 : ascii) (d : jsstring) (view : EditorView) (startLine : Line) :
  isSign c0 = true -> isSign c1 = true -> c0 <> c1 -> digits d ->
  lineAt (doc (state view)) (head (main (selection (state view)))) = Some startLine ->
  1 <= number startLine + (if code c0 =? 45 then - toNumber d else toNumber d)
    <= lines (doc (state view)) ->
  exists v1,
    afterGo (c0 :: d) view = Normal v1
    /\ afterGo (c1 :: d) v1 = Normal (dispatch view (moveTo (from startLine))).
Proof.
  intros C0 C1 Ne D S R.
  destruct (signed_wellFormed c0 d C0 D) as [W0 R0].
  destruct (signed_wellFormed c1 d C1 D) as [W1 R1].
  destruct (go_relative _ c0 d view startLine W0 eq_refl eq_refl eq_refl S)
    as [docLine [L [N G]]].
  rewrite R0 in G. unfold column in G; cbn [cl] in G.
  replace (Z.max 1 (Z.min (lines (doc (state view)))
             (number startLine
              + (if code c0 =? 45 then - toNumber d else toNumber d))))
    with (number startLine
          + (if code c0 =? 45 then - toNumber d else toNumber d)) in L, N by lia.
  assert (B : from docLine <= to docLine).
  { unfold line in L. destruct (_ || _); [discriminate|].
    apply allLines_nth in L. lia. }
  replace (from docLine + Z.min 0 (lineLength docLine)) with (from docLine) in G
    by (unfold lineLength; lia).
  exists (dispatch view (moveTo (from docLine))).
  split; [apply afterGo_dispatch; exact G|].
  assert (Q : lineAt (doc (state view)) (from docLine) = Some docLine)
    by (apply (lineAt_of_line _ _ _ _ L); lia).
  destruct (go_relative _ c1 d (dispatch view (moveTo (from docLine))) docLine
              W1 eq_refl eq_refl eq_refl Q)
    as [back [L1 [N1 G1]]].
  cbn [dispatch state doc] in L1, N1, G1. rewrite R1 in G1.
  unfold column in G1; cbn [cl] in G1.
  assert (O : (if code c1 =? 45 then - toNumber d else toNumber d)
              = - (if code c0 =? 45 then - toNumber d else toNumber d)).
  { assert (code c0 <> code c1) by (intros F; apply Ne, code_inj, F).
    unfold isSign in C0, C1.
    apply orb_true_iff in C0, C1. rewrite !Z.eqb_eq in C0, C1.
    destruct (Z.eqb_spec (code c0) 45), (Z.eqb_spec (code c1) 45); lia. }
  destruct (lineAt_line _ _ _ S) as [L' [Rs [_ [_ [_ [_ _]]]]]].
  rewrite N, O in L1.
  replace (Z.max 1 (Z.min (lines (doc (state view)))
             (number startLine
              + (if code c0 =? 45 then - toNumber d else toNumber d)
              + - (if code c0 =? 45 then - toNumber d else toNumber d))))
    with (number startLine) in L1 by lia.
  assert (back = startLine) by congruence. subst back.
  assert (Bs : from startLine <= to startLine).
  { apply lineAt_inv in S as [_ [[k K] _]]. apply allLines_nth in K. lia. }
  replace (from startLine + Z.min 0 (lineLength startLine)) with (from startLine)
    in G1 by (unfold lineLength; lia).
  rewrite (afterGo_dispatch _ _ _ G1). rewrite dispatch_moveTo_twice. reflexivity.
Qed.

Lemma go_relative_round_trip_witness :
  exists v1,
    afterGo (str "+2") (Documents.cursorAt Documents.threeLines 1) = Normal v1
    /\ afterGo (str "-2") v1
       = Normal (dispatch (Documents.cursorAt Documents.threeLines 1) (moveTo 0)).
Proof.
  apply (go_relative_round_trip "+"%char "-"%char (str "2")
           (Documents.cursorAt Documents.threeLines 1) (mkLine 0 2 1 (str "ab"))).
  - reflexivity.
  - reflexivity.
  - discriminate.
  - split; [discriminate|reflexivity].
  - reflexivity.
  - vm_compute. split; discriminate.
Defined.

End GotoLineRoundTrip.

(** * The dialog: keys and the state field *)

Module DialogFacts.

Import Text GotoLine GotoDialog GrammarFacts TextFacts GotoLineFacts.

(** X8. In a view with the dialog open and the cursor in the document,
    Enter is always handled ([preventDefault] is called, nothing is
    thrown), and it closes the dialog exactly when the text of the
    input field is in the language of the regular expression; when it
    is not, the view is left as it was, the dialog still open. *)
Theorem enter_closes_dialog_iff_match (input : jsstring) (view : EditorView) :
  dialogField (state view) = true ->
  0 <= head (main (selection (state view))) <= length (doc (state view)) ->
  exists r,
    onkeydown 13 input view = Normal r
    /\ defaultPrevented r = true
    /\ (dialogField (state (viewAfter r)) = false <-> matchesGrammar input)
    /\ (~ matchesGrammar input -> viewAfter r = view).
Proof.
  intros O R. unfold onkeydown. cbn [Z.eqb Pos.eqb]. unfold afterGo.
  destruct (exec input) as [m|] eqn:E.
  - destruct (lineAt_defined _ _ R) as [k [startLine [S _]]].
    destruct (go_dispatches view input m startLine E S)
      as [docLine [_ [_ [_ [_ [_ G]]]]]].
    rewrite G. cbn [bind]. eexists. split; [reflexivity|].
    cbn [defaultPrevented viewAfter]. split; [reflexivity|].
    assert (M : matchesGrammar input) by (apply exec_matchesGrammar; eauto).
    split; [split; [intros _; exact M | reflexivity]|].
    intros F. exfalso. exact (F M).
  - assert (G : go input view = Normal None) by (unfold go; rewrite E; reflexivity).
    rewrite G. cbn [bind]. eexists. split; [reflexivity|].
    cbn [defaultPrevented viewAfter]. split; [reflexivity|].
    apply exec_none in E.
    split; [split; [rewrite O; discriminate | intros M; exfalso; exact (E M)]|].
    reflexivity.
Qed.

Lemma enter_closes_dialog_iff_match_witness :
  exists r,
    onkeydown 13 (str "2") (Documents.cursorAt Documents.threeLines 0) = Normal r
    /\ defaultPrevented r = true
    /\ (dialogField (state (viewAfter r)) = false <-> matchesGrammar (str "2"))
    /\ (~ matchesGrammar (str "2")
        -> viewAfter r = Documents.cursorAt Documents.threeLines 0).
Proof.
  apply (enter_closes_dialog_iff_match (str "2")
           (Documents.cursorAt Documents.threeLines 0)).
  - reflexivity.
  - vm_compute. split; discriminate.
Defined.

(** Escape closes the dialog and keeps the selection, whatever the
    input field holds; other keys are not handled. *)
Example escape_and_other_keys (input : jsstring) (view : EditorView) :
  (exists r, onkeydown 27 input view = Normal r
             /\ dialogField (state (viewAfter r)) = false
             /\ selection (state (viewAfter r)) = selection (state view))
  /\ onkeydown 65 input view = Normal (mkKeyResult view false).
Proof. split; [eexists; split; [reflexivity|split; reflexivity]|reflexivity]. Qed.

(** X9. After a transaction the dialog field holds the value of the
    last [dialogEffect] among the effects, and its old value when
    there is none; the effects of a longer list are those of its two
    parts, one after the other. *)
Theorem dialogField_last_effect_wins (value : bool) (effects more : list StateEffect) :
  update value effects
  = match find (fun e => match e with dialogEffect _ => true | otherEffect => false end)
            (rev effects) with
    | Some (dialogEffect v) => v
    | _ => value
    end
  /\ update value (effects ++ more) = update (update value effects) more.
Proof.
  split; [|apply fold_left_app].
  induction effects as [|e rest IH] using rev_ind.
  - reflexivity.
  - unfold update in *. rewrite fold_left_app, rev_app_distr. cbn [fold_left rev app find].
    destruct e as [v|]; [reflexivity|exact IH].
Qed.

(** What [dispatch] does to the field is what [update] does with the
    effects of the transaction, and the panel is provided exactly
    while the field is set. *)
Lemma dispatch_dialogField (view : EditorView) (tr : TransactionSpec) :
  dialogField (state (dispatch view tr))
  = update (dialogField (state view)) (effectsOf tr).
Proof. unfold dispatch, effectsOf. destruct (effects tr); reflexivity. Qed.

End DialogFacts.

(** * The configuration facet *)

Module FacetFacts.

(** A value that is missing leaves the result as it is, so only the
    values given count. *)
Lemma fold_mergeKey_given {A : Type} (same : A -> A -> bool) (combine : A -> A -> A)
  (values : list (option A)) (acc : option A) :
  fold_left (Facet.mergeKey same combine) values acc
  = fold_left (fun a v => Facet.mergeKey same combine a (Some v))
      (Facet.given values) acc.
Proof.
  revert acc. induction values as [|[v|] rest IH]; intros acc;
    cbn [fold_left Facet.given flat_map app].
  - reflexivity.
  - apply IH.
  - replace (Facet.mergeKey same combine acc None) with acc
      by (destruct acc; reflexivity).
    apply IH.
Qed.

Lemma mergeKey_min (current : option Z) (v : Z) :
  Facet.mergeKey Z.eqb Z.min current (Some v)
  = Some (match current with None => v | Some c => Z.min c v end).
Proof.
  destruct current as [c|]; cbn [Facet.mergeKey]; [|reflexivity].
  destruct (Z.eqb_spec c v); [subst; rewrite Z.min_id|]; reflexivity.
Qed.

Lemma mergeKey_or (current : option bool) (v : bool) :
  Facet.mergeKey Bool.eqb orb current (Some v)
  = Some (match current with None => v | Some c => c || v end).
Proof. destruct current as [[|]|], v; reflexivity. Qed.

Lemma fold_min_from (xs : list Z) (a : Z) :
  exists r,
    fold_left (fun a v => Facet.mergeKey Z.eqb Z.min a (Some v)) xs (Some a)
    = Some r
    /\ (r = a \/ In r xs) /\ r <= a /\ Forall (Z.le r) xs.
Proof.
  revert a. induction xs as [|x rest IH]; intros a; cbn [fold_left].
  - exists a. repeat split; auto; lia.
  - rewrite mergeKey_min. destruct (IH (Z.min a x)) as [r [E [I [L F]]]].
    exists r. split; [exact E|]. split; [|split; [lia|]].
    + destruct I as [->|I]; [|right; right; exact I].
      destruct (Z.min_spec a x) as [[_ ->]|[_ ->]]; [left|right; left]; reflexivity.
    + constructor; [lia|exact F].
Qed.

Lemma fold_or_from (xs : list bool) (a : bool) :
  fold_left (fun a v => Facet.mergeKey Bool.eqb orb a (Some v)) xs (Some a)
  = Some (a || existsb (fun b => b) xs).
Proof.
  revert a. induction xs as [|x rest IH]; intros a; cbn [fold_left existsb].
  - rewrite orb_false_r. reflexivity.
  - rewrite mergeKey_or, IH, orb_assoc. reflexivity.
Qed.

Lemma combineKey_min (values : list (option Z)) (default : Z) :
  Facet.leastOr default (Facet.given values)
    (Facet.combineKey Z.eqb Z.min values default).
Proof.
  unfold Facet.combineKey. rewrite fold_mergeKey_given.
  destruct (Facet.given values) as [|x rest]; cbn [fold_left Facet.leastOr].
  - reflexivity.
  - cbn [Facet.mergeKey]. destruct (fold_min_from rest x) as [r [E [I [L F]]]].
    rewrite E. split.
    + destruct I as [->|I]; [left; reflexivity|right; exact I].
    + constructor; assumption.
Qed.

Lemma combineKey_or (values : list (option bool)) :
  Facet.combineKey Bool.eqb orb values false
  = existsb (fun b => b) (Facet.given values).
Proof.
  unfold Facet.combineKey. rewrite fold_mergeKey_given.
  destruct (Facet.given values) as [|x rest]; cbn [fold_left existsb].
  - reflexivity.
  - cbn [Facet.mergeKey]. rewrite fold_or_from. reflexivity.
Qed.

Lemma leastOr_permutation (default : Z) (xs ys : list Z) (r s : Z) :
  Permutation xs ys -> Facet.leastOr default xs r -> Facet.leastOr default ys s -> r = s.
Proof.
  intros P. destruct xs as [|x xs'], ys as [|y ys']; cbn [Facet.leastOr].
  - congruence.
  - apply Permutation_nil in P. discriminate.
  - apply Permutation_sym, Permutation_nil in P. discriminate.
  - intros [I F] [J G]. rewrite Forall_forall in F, G.
    pose proof (F s (Permutation_in _ (Permutation_sym P) J)).
    pose proof (G r (Permutation_in _ P I)). lia.
Qed.

Lemma given_permutation {A B : Type} (f : A -> option B) (xs ys : list A) :
  Permutation xs ys ->
  Permutation (Facet.given (map f xs)) (Facet.given (map f ys)).
Proof.
  intros P. unfold Facet.given.
  induction P; cbn [map flat_map].
  - constructor.
  - apply Permutation_app_head. exact IHP.
  - rewrite !app_assoc. apply Permutation_app_tail, Permutation_app_comm.
  - eapply Permutation_trans; eassumption.
Qed.

Lemma existsb_permutation (xs ys : list bool) :
  Permutation xs ys -> existsb (fun b => b) xs = existsb (fun b => b) ys.
Proof.
  intros P. apply eq_true_iff_eq. rewrite !existsb_exists.
  split; intros [b [I T]]; exists b; split; auto;
    [apply (Permutation_in _ P I) | apply (Permutation_in _ (Permutation_sym P) I)].
Qed.

(** X10. The combined configuration takes, for each of the two
    numbers, the least of the values the extensions give, and the
    default (1, 100) only when no extension gives one; the word
    highlighting is on exactly when some extension turns it on. *)
Theorem combine_least_of_given (options : list Facet.HighlightOptions) :
  let conf := Facet.combine options in
  highlightWordAroundCursor conf
  = existsb (fun b => b)
      (Facet.given (map Facet.highlightWordAroundCursor options))
  /\ Facet.leastOr 1 (Facet.given (map Facet.minSelectionLength options))
       (minSelectionLength conf)
  /\ Facet.leastOr 100 (Facet.given (map Facet.maxMatches options))
       (maxMatches conf).
Proof.
  cbv zeta. unfold Facet.combine.
  cbn [highlightWordAroundCursor minSelectionLength maxMatches
       defaultHighlightOptions].
  split; [apply combineKey_or|]. split; apply combineKey_min.
Qed.

(** X11. The combined configuration does not depend on the order in
    which the extensions come. *)
Theorem combine_order_independent (options options' : list Facet.HighlightOptions) :
  Permutation options options' -> Facet.combine options = Facet.combine options'.
Proof.
  intros P. unfold Facet.combine.
  cbn [highlightWordAroundCursor minSelectionLength maxMatches
       defaultHighlightOptions].
  f_equal.
  - rewrite !combineKey_or. apply existsb_permutation, given_permutation, P.
  - eapply leastOr_permutation;
      [apply (given_permutation Facet.minSelectionLength _ _ P)
      |apply combineKey_min|apply combineKey_min].
  - eapply leastOr_permutation;
      [apply (given_permutation Facet.maxMatches _ _ P)
      |apply combineKey_min|apply combineKey_min].
Qed.

Lemma combine_order_independent_witness :
  Facet.combine [Facet.mkContribution None (Some 3) None;
                 Facet.mkContribution (Some true) (Some 2) (Some 50)]
  = Facet.combine [Facet.mkContribution (Some true) (Some 2) (Some 50);
                   Facet.mkContribution None (Some 3) None].
Proof.
  apply combine_order_independent. apply perm_swap.
Defined.

(** A single extension asking for a minimum of 5 gets 5: the default
    is not a bound. *)
Example combine_single_contribution :
  Facet.combine [Facet.mkContribution None (Some 5) None] = mkOptions false 5 100
  /\ Facet.combine [] = defaultHighlightOptions.
Proof. split; reflexivity. Qed.

End FacetFacts.

(** * The word around the cursor, character by character *)

Module WordMore.

Import SelectionMatch TextFacts WordFacts.

Lemma slice_step (s : jsstring) (a b : Z) :
  0 <= a < b -> a < JS.length s ->
  exists c, slice s a (a + 1) = [c] /\ slice s a b = c :: slice s (a + 1) b.
Proof.
  intros H L. unfold slice, JS.length in *.
  replace (Z.to_nat (a + 1)) with (1 + Z.to_nat a)%nat by lia.
  rewrite <- skipn_skipn.
  destruct (skipn (Z.to_nat a) s) as [|c r] eqn:E.
  - apply (f_equal (@List.length ascii)) in E. rewrite length_skipn in E.
    cbn in E. lia.
  - exists c. replace (Z.to_nat (a + 1 - a)) with 1%nat by lia.
    replace (Z.to_nat (b - a)) with (S (Z.to_nat (b - (a + 1)))) by lia.
    cbn [firstn skipn]. split; reflexivity.
Qed.

(** A property of every one-character slice of a range holds of every
    character of the range. *)
Lemma slice_Forall (P : jsstring -> Prop) (s : jsstring) (n : nat) (a b : Z) :
  Z.to_nat (b - a) = n -> 0 <= a -> b <= JS.length s ->
  (forall i, a <= i < b -> P (slice s i (i + 1))) ->
  Forall (fun c => P [c]) (slice s a b).
Proof.
  revert a. induction n as [|n IH]; intros a N A B H.
  - unfold slice. rewrite N. constructor.
  - destruct (slice_step s a b) as [c [E1 E2]]; [lia|lia|].
    rewrite E2. constructor.
    + rewrite <- E1. apply H. lia.
    + apply IH; [lia|lia|lia|]. intros i Hi. apply H. lia.
Qed.

Section Loops.

Variable text : jsstring.
Variable check : jsstring -> CharCategory.

Let word (i : Z) : Prop := isWord (check (slice text i (i + 1))) = true.

(** What the first loop steps over are word characters. *)
Lemma wordStart_run (fuel : nat) (from : Z) :
  0 <= from ->
  forall i, wordStart fuel text check from <= i < from -> word i.
Proof.
  revert from. induction fuel as [|fuel IH]; intros from H i Hi;
    cbn [wordStart] in Hi; [lia|].
  destruct (Z.ltb_spec 0 from) as [P|P]; [|lia].
  unfold findClusterBreak in Hi. destruct (Z.ltb_spec 0 from) as [_|]; [|lia].
  destruct (isWord (check (slice text (from - 1) from))) eqn:E; cbn [negb] in Hi;
    [|lia].
  destruct (Z.eq_dec i (from - 1)) as [->|Ne].
  - unfold word. replace (from - 1 + 1) with from by lia. exact E.
  - apply (IH (from - 1)); lia.
Qed.

Lemma wordEnd_run (fuel : nat) (to : Z) :
  forall i, to <= i < wordEnd fuel text (JS.length text) check to -> word i.
Proof.
  revert to. induction fuel as [|fuel IH]; intros to i Hi;
    cbn [wordEnd] in Hi; [lia|].
  destruct (Z.ltb_spec to (JS.length text)) as [P|P]; [|lia].
  unfold findClusterBreak in Hi.
  destruct (Z.ltb_spec to (JS.length text)) as [_|]; [|lia].
  destruct (isWord (check (slice text to (to + 1)))) eqn:E; cbn [negb] in Hi;
    [|lia].
  destruct (Z.eq_dec i to) as [->|Ne]; [exact E|].
  apply (IH (to + 1)). lia.
Qed.

(** The first loop moves exactly when there is a word character
    before the cursor. *)
Lemma wordStart_moves (fuel : nat) (from : Z) :
  0 <= from <= Z.of_nat fuel ->
  wordStart fuel text check from < from <-> 0 < from /\ word (from - 1).
Proof.
  intros H. destruct fuel as [|fuel]; cbn [wordStart]; [lia|].
  destruct (Z.ltb_spec 0 from) as [P|P]; [|lia].
  unfold findClusterBreak. destruct (Z.ltb_spec 0 from) as [_|]; [|lia].
  unfold word. replace (from - 1 + 1) with from by lia.
  destruct (isWord (check (slice text (from - 1) from))) eqn:E; cbn [negb].
  - pose proof (wordStart_bounds text check fuel (from - 1)). split; [auto|lia].
  - split; [lia|intros [_ F]; discriminate].
Qed.

(** The second loop moves exactly when there is a word character
    after the cursor. *)
Lemma wordEnd_moves (fuel : nat) (to : Z) :
  0 <= to -> JS.length text - to <= Z.of_nat fuel ->
  to < wordEnd fuel text (JS.length text) check to
  <-> to < JS.length text /\ word to.
Proof.
  intros H F. destruct fuel as [|fuel]; cbn [wordEnd]; [lia|].
  destruct (Z.ltb_spec to (JS.length text)) as [P|P]; [|lia].
  unfold findClusterBreak.
  destruct (Z.ltb_spec to (JS.length text)) as [_|]; [|lia].
  unfold word.
  destruct (isWord (check (slice text to (to + 1)))) eqn:E; cbn [negb].
  - pose proof (wordEnd_bounds text check fuel (to + 1)). split; [auto|lia].
  - split; [lia|intros [_ G]; discriminate].
Qed.

End Loops.

(** Everything about the word [wordAt] returns. *)
Lemma wordAt_run (doc : Text.Text) (pos : Z) (check : jsstring -> CharCategory)
  (w : jsstring) :
  wordAt doc pos check = Normal (Some w) ->
  exists line from to,
    Text.lineAt doc pos = Some line
    /\ w = slice (Text.text line) from to
    /\ 0 <= from <= pos - Text.from line
    /\ pos - Text.from line <= to <= JS.length (Text.text line)
    /\ from < to
    /\ (forall i, from <= i < to ->
          isWord (check (slice (Text.text line) i (i + 1))) = true)
    /\ (from <= 0
        \/ isWord (check (slice (Text.text line) (from - 1) from)) = false)
    /\ (JS.length (Text.text line) <= to
        \/ isWord (check (slice (Text.text line) to (to + 1))) = false).
Proof.
  intros H. unfold wordAt in H.
  destruct (Text.lineAt doc pos) as [line|] eqn:L; cbn [ofOption bind] in H;
    [|discriminate].
  destruct (lineAt_line _ _ _ L) as [_ [_ [A [B [C [D E]]]]]].
  assert (N : Text.lineLength line = JS.length (Text.text line))
    by (unfold Text.lineLength; lia).
  rewrite N in H.
  assert (P0 : 0 <= pos - Text.from line <= JS.length (Text.text line)) by lia.
  set (text := Text.text line) in *. set (p := pos - Text.from line) in *.
  pose proof (wordStart_bounds text check (List.length text) p) as S.
  pose proof (wordEnd_bounds text check (List.length text) p) as T.
  pose proof (wordStart_run text check (List.length text) p) as RS.
  pose proof (wordEnd_run text check (List.length text) p) as RE.
  pose proof (wordStart_exits text check (List.length text) p) as XS.
  pose proof (wordEnd_exits text check (List.length text) p) as XE.
  cbv zeta in XS, XE.
  destruct (Z.eqb_spec (wordStart (List.length text) text check p)
              (wordEnd (List.length text) text (JS.length text) check p))
    as [Q|Q]; [discriminate|].
  injection H as <-.
  exists line. eexists. eexists. split; [reflexivity|]. split; [reflexivity|].
  subst p text. split; [lia|]. split; [lia|]. split; [lia|]. split.
  - intros i Hi. destruct (Z.lt_ge_cases i (pos - Text.from line)); [apply RS|apply RE]; lia.
  - split; [apply XS|apply XE]; unfold JS.length in *; lia.
Qed.

(** X12. The word [wordAt] returns is a stretch of the line of the
    cursor that contains the cursor position, is not empty, and holds
    only characters the categorizer takes for word characters. *)
Theorem wordAt_word_characters
  (doc : Text.Text) (pos : Z) (check : jsstring -> CharCategory) (w : jsstring) :
  wordAt doc pos check = Normal (Some w) ->
  w <> [] /\ Forall (fun c => check [c] = Word) w
  /\ exists line from to,
       Text.lineAt doc pos = Some line
       /\ w = slice (Text.text line) from to
       /\ 0 <= from <= pos - Text.from line
       /\ pos - Text.from line <= to <= JS.length (Text.text line).
Proof.
  intros H. destruct (wordAt_some _ _ _ _ H) as [T _].
  destruct (wordAt_run _ _ _ _ H) as [line [from [to [L [E [A [B [C [R _]]]]]]]]].
  split; [intros ->; discriminate|]. split.
  - rewrite E.
    apply (slice_Forall (fun s => check s = Word) _ (Z.to_nat (to - from)));
      [reflexivity|lia|lia|].
    intros i Hi. specialize (R i Hi).
    destruct (check (slice (Text.text line) i (i + 1))); [reflexivity|discriminate..].
  - exists line, from, to. auto.
Qed.

Lemma wordAt_word_characters_witness :
  str "foo" <> []
  /\ Forall (fun c => Scenarios.categorize [c] = Word) (str "foo").
Proof.
  destruct (wordAt_word_characters (str "foo bar foo") 9 Scenarios.categorize
              (str "foo") eq_refl) as [A [B _]].
  split; [exact A|exact B].
Defined.

(** X13. The word [wordAt] returns cannot be extended: it starts at
    the start of the line or after a character that is not a word
    character, and ends at the end of the line or before one. *)
Theorem wordAt_maximal
  (doc : Text.Text) (pos : Z) (check : jsstring -> CharCategory) (w : jsstring) :
  wordAt doc pos check = Normal (Some w) ->
  exists line from to,
    Text.lineAt doc pos = Some line
    /\ w = slice (Text.text line) from to
    /\ (from = 0 \/ check (slice (Text.text line) (from - 1) from) <> Word)
    /\ (to = Text.lineLength line
        \/ check (slice (Text.text line) to (to + 1)) <> Word).
Proof.
  intros H.
  destruct (wordAt_run _ _ _ _ H)
    as [line [from [to [L [E [A [B [C [_ [XS XE]]]]]]]]]].
  destruct (lineAt_line _ _ _ L) as [_ [_ [_ [_ [_ [_ N]]]]]].
  exists line, from, to. split; [exact L|]. split; [exact E|]. split.
  - destruct XS as [XS|XS]; [left; lia|right]. intros F. rewrite F in XS. discriminate.
  - destruct XE as [XE|XE]; [left; unfold Text.lineLength; lia|right].
    intros F. rewrite F in XE. discriminate.
Qed.

Lemma wordAt_maximal_witness :
  exists line from to,
    Text.lineAt (str "foo bar foo") 5 = Some line
    /\ str "bar" = slice (Text.text line) from to
    /\ (from = 0
        \/ Scenarios.categorize (slice (Text.text line) (from - 1) from) <> Word)
    /\ (to = Text.lineLength line
        \/ Scenarios.categorize (slice (Text.text line) to (to + 1)) <> Word).
Proof.
  apply (wordAt_maximal (str "foo bar foo") 5 Scenarios.categorize (str "bar")).
  reflexivity.
Defined.

End WordMore.

(** * Further properties of the highlighter *)

Module HighlightMore.

Import SelectionMatch TextFacts WordFacts WordMore CollectFacts.

(** [chooseQuery] for a single cursor with the word highlighting on. *)
Lemma chooseQuery_cursor
  (doc : Text.Text) (pos : Z) (categorizer : Z -> Categorizer) (dialog : bool)
  (visible : list (Z * Z)) (minLength limit : Z) :
  chooseQuery
    (mkView (mkState doc (mkSelection [mkRange pos pos] 0)
               (mkOptions true minLength limit) categorizer dialog) visible)
  = let* query := wordAt doc pos (categorizer pos) in
    match query with
    | None => Normal None
    | Some query =>
        if negb (truthy query) then Normal None
        else Normal (Some (query, Some (categorizer pos)))
    end.
Proof.
  unfold chooseQuery. cbn -[wordAt truthy].
  unfold Editor.empty, Editor.from, Editor.to. cbn [anchor head].
  rewrite Z.min_id, Z.max_id, Z.eqb_refl. reflexivity.
Qed.

(** X14. With a single cursor and [highlightWordAroundCursor] on,
    [getDeco] gets to the match collection exactly when the character
    before the cursor or the character after it, in the line of the
    cursor, is a word character. *)
Theorem cursor_highlighted_iff_word_adjacent
  (doc : Text.Text) (pos : Z) (categorizer : Z -> Categorizer) (dialog : bool)
  (visible : list (Z * Z)) (minLength limit : Z) (line : Text.Line) :
  Text.lineAt doc pos = Some line ->
  let text := Text.text line in
  let p := pos - Text.from line in
  highlighted
    (mkView (mkState doc (mkSelection [mkRange pos pos] 0)
               (mkOptions true minLength limit) categorizer dialog) visible)
  <-> (0 < p /\ categorizer pos (slice text (p - 1) p) = Word)
      \/ (p < Text.lineLength line /\ categorizer pos (slice text p (p + 1)) = Word).
Proof.
  intros L text p. unfold highlighted. rewrite chooseQuery_cursor.
  destruct (lineAt_line _ _ _ L) as [_ [_ [A [B [C [D E]]]]]].
  assert (N : Text.lineLength line = JS.length text)
    by (unfold Text.lineLength, text; lia).
  assert (P0 : 0 <= p <= JS.length text) by (unfold p, text; lia).
  pose proof (wordStart_bounds text (categorizer pos) (List.length text) p) as S.
  pose proof (wordEnd_bounds text (categorizer pos) (List.length text) p) as T.
  pose proof (wordStart_moves text (categorizer pos) (List.length text) p) as MS.
  pose proof (wordEnd_moves text (categorizer pos) (List.length text) p) as ME.
  assert (W : forall s, isWord (categorizer pos s) = true <-> categorizer pos s = Word).
  { intros s. destruct (categorizer pos s); split; intros F;
      try reflexivity; discriminate. }
  cbv beta in MS, ME.
  replace (p - 1 + 1) with p in MS by lia. rewrite W in MS, ME. rewrite N.
  rewrite <- MS, <- ME by (unfold JS.length in *; lia).
  destruct (wordAt doc pos (categorizer pos)) as [[w|]|] eqn:Q; cbn [bind].
  - destruct (wordAt_some _ _ _ _ Q) as [Tw _]. rewrite Tw. cbn [negb].
    split; [intros _|intros _; eauto].
    unfold wordAt in Q. rewrite L in Q. cbn [ofOption bind] in Q.
    fold text p in Q. rewrite N in Q.
    destruct (Z.eqb_spec (wordStart (List.length text) text (categorizer pos) p)
                (wordEnd (List.length text) text (JS.length text)
                   (categorizer pos) p)); [discriminate|lia].
  - split; [intros [q [c F]]; discriminate|]. intros M. exfalso.
    unfold wordAt in Q. rewrite L in Q. cbn [ofOption bind] in Q.
    fold text p in Q. rewrite N in Q.
    destruct (Z.eqb_spec (wordStart (List.length text) text (categorizer pos) p)
                (wordEnd (List.length text) text (JS.length text)
                   (categorizer pos) p)); [lia|discriminate].
  - unfold wordAt in Q. rewrite L in Q. discriminate.
Qed.

(** At the end of ["foo bar foo"] the character before the cursor is a
    word character. *)
Lemma cursor_highlighted_iff_word_adjacent_witness :
  highlighted (Scenarios.viewOf (str "foo bar foo") (Scenarios.single 11 11)
                 (mkOptions true 1 100))
  <-> (0 < 11 - 0
       /\ Scenarios.categorize (slice (str "foo bar foo") (11 - 0 - 1) (11 - 0))
          = Word)
      \/ (11 - 0 < Text.lineLength (Text.mkLine 0 11 1 (str "foo bar foo"))
          /\ Scenarios.categorize
               (slice (str "foo bar foo") (11 - 0) (11 - 0 + 1)) = Word).
Proof.
  apply (cursor_highlighted_iff_word_adjacent (str "foo bar foo") 11
           (fun _ => Scenarios.categorize) true [(0, 11)] 1 100
           (Text.mkLine 0 11 1 (str "foo bar foo"))).
  reflexivity.
Defined.

(** Between the two spaces of ["a  b"] there is no word to highlight. *)
Example cursor_between_spaces :
  getDeco (Scenarios.viewOf (str "a  b") (Scenarios.single 2 2)
             (mkOptions true 1 100))
  = Normal Decoration_none.
Proof. reflexivity. Qed.

End HighlightMore.

(** * What is decorated, and how *)

Module DecorationFacts.

Import SelectionMatch TextFacts CollectFacts HighlightMore.

(** [chooseQuery] for a single selection that is not empty never has a
    categorizer. *)
Lemma chooseQuery_selection (view : EditorView) (r : SelectionRange) :
  selection (state view) = mkSelection [r] 0 -> Editor.empty r = false ->
  chooseQuery view = Normal None
  \/ exists query, chooseQuery view = Normal (Some (query, None)).
Proof.
  intros S E. unfold chooseQuery. rewrite S.
  cbn [ranges List.length Nat.ltb Nat.leb]. unfold main; cbn [mainIndex ranges nth].
  rewrite E. destruct (_ || _); [left; reflexivity|].
  destruct (negb _); [left; reflexivity|right; eauto].
Qed.

(** X15. With a single selection that is not empty, no decoration of
    [getDeco] is the main one and none touches the inside of the
    selection: each lies wholly before it or wholly after it. *)
Theorem selection_itself_never_decorated
  (view : EditorView) (r : SelectionRange) (ds : DecorationSet) (d : DecoRange) :
  selection (state view) = mkSelection [r] 0 -> Editor.empty r = false ->
  getDeco view = Normal ds -> In d ds ->
  value d = matchDeco /\ (Editor.to r <= from d \/ to d <= Editor.from r).
Proof.
  intros S E G I. unfold getDeco in G.
  assert (M : main (selection (state view)) = r) by (rewrite S; reflexivity).
  destruct (chooseQuery_selection view r S E) as [Q|[q Q]]; rewrite Q in G;
    cbn [bind] in G; injection G as <-; [destruct I|].
  rewrite M in I. apply collect_subset, decorations_inv in I as [_ [_ D]].
  unfold decorate in D. cbn [andb] in D.
  destruct ((from d >=? Editor.to r) || (to d <=? Editor.from r)) eqn:C;
    [|destruct D].
  destruct D as [<-|[]]. cbn [value from to] in *. split; [reflexivity|].
  apply orb_true_iff in C as [C|C]; [left; apply Z.geb_le in C|right; apply Z.leb_le in C];
    exact C.
Qed.

Lemma selection_itself_never_decorated_witness :
  value (mkDeco matchDeco 0 3) = matchDeco
  /\ (Editor.to (mkRange 8 11) <= from (mkDeco matchDeco 0 3)
      \/ to (mkDeco matchDeco 0 3) <= Editor.from (mkRange 8 11)).
Proof.
  apply (selection_itself_never_decorated Scenarios.fooBarFoo (mkRange 8 11)
           [mkDeco matchDeco 0 3] (mkDeco matchDeco 0 3)).
  - reflexivity.
  - reflexivity.
  - reflexivity.
  - left. reflexivity.
Defined.

(** With an empty range one of the two [push] branches is always
    taken. *)
Lemma decorate_cursor (chk : Categorizer) (pos from to : Z) :
  decorate (Some chk) (mkRange pos pos) from to
  = [mkDeco (if (from <=? pos) && (to >=? pos) then mainMatchDeco else matchDeco)
       from to].
Proof.
  unfold decorate, Editor.from, Editor.to. cbn [anchor head andb].
  rewrite Z.min_id, Z.max_id.
  destruct (Z.leb_spec from pos) as [A|A], (Z.geb_spec to pos) as [B|B];
    cbn [andb]; try reflexivity.
  - replace ((from >=? pos) || (to <=? pos)) with true; [reflexivity|].
    symmetry. apply orb_true_iff. right. apply Z.leb_le. lia.
  - replace ((from >=? pos) || (to <=? pos)) with true; [reflexivity|].
    symmetry. apply orb_true_iff. left. apply Z.geb_le. lia.
  - replace ((from >=? pos) || (to <=? pos)) with true; [reflexivity|].
    symmetry. apply orb_true_iff. left. apply Z.geb_le. lia.
Qed.

Lemma decorations_cursor (state : EditorState) (chk : Categorizer) (pos : Z)
  (ms : list (Z * Z)) :
  decorations state (Some chk) (mkRange pos pos) ms
  = map (fun m => mkDeco (if (fst m <=? pos) && (snd m >=? pos)
                          then mainMatchDeco else matchDeco) (fst m) (snd m))
      (filter (fun m => accepted state (Some chk) (fst m) (snd m)) ms).
Proof.
  unfold decorations. induction ms as [|m rest IH]; cbn [flat_map filter map].
  - reflexivity.
  - destruct (accepted state (Some chk) (fst m) (snd m)).
    + rewrite decorate_cursor, IH. reflexivity.
    + exact IH.
Qed.

(** X16. With a cursor as the range, the pass skips no match that
    passes the whole-word test: when at most [maxMatches] pass it,
    each gets one decoration, in the order found, the main one if it
    holds the cursor and a regular one if not; when more pass it, the
    result is empty. *)
Theorem cursor_pass_decorates_every_whole_word
  (view : EditorView) (chk : Categorizer) (pos : Z) (query : jsstring) :
  let whole :=
    filter (fun m => accepted (state view) (Some chk) (fst m) (snd m))
      (allMatches view query) in
  collect view (Some chk) (mkRange pos pos) query
  = if Z.of_nat (List.length whole) >? maxMatches (highlightConfig (state view))
    then Decoration_none
    else map (fun m => mkDeco (if (fst m <=? pos) && (snd m >=? pos)
                               then mainMatchDeco else matchDeco) (fst m) (snd m))
           whole.
Proof.
  intros whole. rewrite collect_all_or_nothing, decorations_cursor.
  fold whole. rewrite length_map. reflexivity.
Qed.

Lemma decorations_doc (st st' : EditorState) (check : option Categorizer)
  (range : SelectionRange) (ms : list (Z * Z)) :
  doc st = doc st' ->
  decorations st check range ms = decorations st' check range ms.
Proof.
  intros H. unfold decorations. apply flat_map_ext. intros m.
  unfold accepted, sliceDoc. rewrite H. reflexivity.
Qed.

(** X17. Raising [maxMatches] never takes a decoration away: under the
    lower limit the pass gives either nothing or just what it gives
    under the higher one. *)
Theorem raising_maxMatches_keeps_decorations
  (doc : Text.Text) (sel : EditorSelection) (word : bool) (minLength : Z)
  (categorizer : Z -> Categorizer) (dialog : bool) (visible : list (Z * Z))
  (check : option Categorizer) (range : SelectionRange) (query : jsstring)
  (limit limit' : Z) :
  limit <= limit' ->
  let view l := mkView (mkState doc sel (mkOptions word minLength l)
                          categorizer dialog) visible in
  collect (view limit) check range query = Decoration_none
  \/ collect (view limit) check range query
     = collect (view limit') check range query.
Proof.
  intros L view. rewrite !collect_all_or_nothing.
  change (allMatches (view limit') query) with (allMatches (view limit) query).
  rewrite (decorations_doc (state (view limit')) (state (view limit)))
    by reflexivity.
  set (D := decorations (state (view limit)) check range
              (allMatches (view limit) query)).
  change (maxMatches (highlightConfig (state (view limit)))) with limit.
  change (maxMatches (highlightConfig (state (view limit')))) with limit'.
  destruct (Z.gtb_spec (Z.of_nat (List.length D)) limit) as [A|A];
    [left; reflexivity|right].
  destruct (Z.gtb_spec (Z.of_nat (List.length D)) limit') as [B|B];
    [lia|reflexivity].
Qed.

Lemma raising_maxMatches_keeps_decorations_witness :
  collect (mkView (mkState (str "foo bar foo") (Scenarios.single 8 11)
                     (mkOptions false 1 0) (fun _ => Scenarios.categorize) true)
             [(0, 11)])
    None (mkRange 8 11) (str "foo") = Decoration_none
  \/ collect (mkView (mkState (str "foo bar foo") (Scenarios.single 8 11)
                        (mkOptions false 1 0) (fun _ => Scenarios.categorize) true)
                [(0, 11)])
       None (mkRange 8 11) (str "foo")
     = collect (mkView (mkState (str "foo bar foo") (Scenarios.single 8 11)
                          (mkOptions false 1 1) (fun _ => Scenarios.categorize) true)
                  [(0, 11)])
         None (mkRange 8 11) (str "foo").
Proof.
  apply (raising_maxMatches_keeps_decorations (str "foo bar foo")
           (Scenarios.single 8 11) false 1 (fun _ => Scenarios.categorize) true
           [(0, 11)] None (mkRange 8 11) (str "foo") 0 1).
  lia.
Defined.

(** X18. [getDeco] throws nothing when the head of the main range is a
    position of the document, and so neither do the constructor and
    the update of the plugin. *)
Theorem getDeco_never_throws (view : EditorView) :
  0 <= head (main (selection (state view))) <= Text.length (doc (state view)) ->
  exists ds,
    getDeco view = Normal ds
    /\ constructor view = Normal (mkPlugin ds)
    /\ forall this flags1 flags2 flags3,
         exists p, update this (mkUpdate view flags1 flags2 flags3) = Normal p.
Proof.
  intros R.
  assert (G : exists ds, getDeco view = Normal ds).
  { unfold getDeco, chooseQuery.
    destruct (1 <? _)%nat; cbn [bind]; [eauto|].
    destruct (Editor.empty _).
    - destruct (negb (highlightWordAroundCursor _)); cbn [bind]; [eauto|].
      unfold wordAt. destruct (lineAt_defined _ _ R) as [k [L [E _]]].
      rewrite E. cbn [ofOption bind]. destruct (_ =? _); cbn [bind]; [eauto|].
      destruct (negb _); cbn [bind]; eauto.
    - destruct (_ || _); cbn [bind]; [eauto|].
      destruct (negb _); cbn [bind]; eauto. }
  destruct G as [ds G]. exists ds. split; [exact G|]. split.
  - unfold constructor. rewrite G. reflexivity.
  - intros this f1 f2 f3. unfold update. cbn [selectionSet docChanged viewportChanged SelectionMatch.view].
    destruct (f1 || f2 || f3); [rewrite G|]; cbn [bind]; eauto.
Qed.

Lemma getDeco_never_throws_witness :
  exists ds,
    getDeco Scenarios.fooBarFooCursor = Normal ds
    /\ constructor Scenarios.fooBarFooCursor = Normal (mkPlugin ds)
    /\ forall this flags1 flags2 flags3,
         exists p, update this (mkUpdate Scenarios.fooBarFooCursor
                                  flags1 flags2 flags3) = Normal p.
Proof.
  apply (getDeco_never_throws Scenarios.fooBarFooCursor).
  vm_compute. split; discriminate.
Defined.

(** With the cursor outside the document and the word highlighting on,
    [lineAt] throws and so does [getDeco]. *)
Example getDeco_throws_outside :
  getDeco (Scenarios.viewOf (str "foo") (Scenarios.single 7 7)
             (mkOptions true 1 100)) = Throw.
Proof. reflexivity. Qed.

End DecorationFacts.

(** * The match collection on mutable objects is the match collection *)

Module ImperativeFacts.

Import SelectionMatch SearchFacts.

Lemma replaceNth_length {A : Type} (n : nat) (x : A) (l : list A) :
  List.length (Imperative.replaceNth n x l) = List.length l.
Proof.
  revert n. induction l as [|y l IH]; intros [|n]; cbn; auto.
Qed.

Lemma replaceNth_nth_error {A : Type} (n : nat) (x : A) (l : list A) :
  (n < List.length l)%nat ->
  nth_error (Imperative.replaceNth n x l) n = Some x.
Proof.
  revert n. induction l as [|y l IH]; intros [|n] H; cbn in *; try lia; auto.
  apply IH. lia.
Qed.

Lemma replaceNth_nth {A : Type} (n : nat) (x d : A) (l : list A) :
  (n < List.length l)%nat -> nth n (Imperative.replaceNth n x l) d = x.
Proof.
  revert n. induction l as [|y l IH]; intros [|n] H; cbn in *; try lia; auto.
  apply IH. lia.
Qed.

(** Pushing to an array of the store appends to it and touches nothing
    else. *)
Lemma pushAll_spec (array : nat) (xs : list DecoRange) (s : Imperative.Store) :
  (array < List.length (Imperative.arrays s))%nat ->
  Imperative.elements array (Imperative.pushAll array xs s)
  = Imperative.elements array s ++ xs
  /\ Imperative.cursors (Imperative.pushAll array xs s) = Imperative.cursors s
  /\ List.length (Imperative.arrays (Imperative.pushAll array xs s))
     = List.length (Imperative.arrays s)
  /\ Imperative.this_decorations (Imperative.pushAll array xs s)
     = Imperative.this_decorations s.
Proof.
  revert s. induction xs as [|x xs IH]; intros s H; cbn [Imperative.pushAll fold_left].
  - rewrite app_nil_r. auto.
  - assert (H' : (array < List.length
                     (Imperative.arrays (Imperative.push array x s)))%nat)
      by (cbn; rewrite replaceNth_length; exact H).
    destruct (IH _ H') as [E [C [L T]]]. fold (Imperative.pushAll array xs) .
    unfold Imperative.pushAll in *. rewrite E, C, L, T.
    unfold Imperative.elements, Imperative.push; cbn.
    rewrite replaceNth_nth, replaceNth_length, <- app_assoc by exact H. auto.
Qed.

Section Scan.

Variable doc : Text.Text.
Variable query : jsstring.
Hypothesis query_truthy : truthy query = true.

(** The scan of the whole range is the first match followed by the scan
    of what is left, and [nextMatch] finds the first match beyond where
    it starts. *)
Lemma scanFrom_nextMatch (fuel : nat) (pos to : Z) :
  (Z.to_nat (to - pos) < fuel)%nat ->
  match Imperative.nextMatch fuel doc query pos to with
  | Some (f, t) =>
      scanFrom fuel doc query pos to
      = (f, t) :: scanFrom (Z.to_nat (to - t) + 1) doc query t to
      /\ pos < t <= to
  | None => scanFrom fuel doc query pos to = []
  end.
Proof.
  pose proof (query_length query query_truthy) as Q.
  revert pos. induction fuel as [|fuel IH]; intros pos H; [lia|].
  cbn [Imperative.nextMatch scanFrom].
  destruct (Z.ltb_spec to (pos + JS.length query)) as [L|L]; [reflexivity|].
  destruct (JS.eqb _ query).
  - split; [|lia]. f_equal.
    apply (scanFrom_fuel doc query query_truthy); lia.
  - specialize (IH (pos + 1)).
    destruct (Imperative.nextMatch fuel doc query (pos + 1) to) as [[f t]|].
    + destruct IH as [E B]; [lia|]. split; [exact E|lia].
    + apply IH. lia.
Qed.

End Scan.

Section Loop.

Variable view : EditorView.
Variable check : option Categorizer.
Variable range : SelectionRange.
Variable cursor deco : nat.

Let st := state view.
Let conf := highlightConfig st.

(** The loop over one cursor does what [scanMatches] does over the
    matches the cursor has left, leaves the outcome in the array, and
    ends within the iterations it is given. *)
Lemma whileNext_spec (fuel : nat) (s : Imperative.Store)
  (c : Imperative.SearchCursorObject) :
  nth_error (Imperative.cursors s) cursor = Some c ->
  Imperative.sc_done c = false ->
  truthy (Imperative.sc_query c) = true ->
  (deco < List.length (Imperative.arrays s))%nat ->
  (Z.to_nat (Imperative.sc_to c - Imperative.sc_pos c) < fuel)%nat ->
  exists s',
    match scanMatches st conf check range
            (scanFrom (Z.to_nat (Imperative.sc_to c - Imperative.sc_pos c) + 1)
               (Imperative.sc_doc c) (Imperative.sc_query c)
               (Imperative.sc_pos c) (Imperative.sc_to c))
            (Imperative.elements deco s) with
    | Some d =>
        Imperative.whileNext fuel view check range cursor deco s
        = (Imperative.Finished, s')
        /\ Imperative.elements deco s' = d
    | None =>
        Imperative.whileNext fuel view check range cursor deco s
        = (Imperative.Returned, s')
    end
    /\ List.length (Imperative.arrays s') = List.length (Imperative.arrays s)
    /\ List.length (Imperative.cursors s') = List.length (Imperative.cursors s)
    /\ Imperative.this_decorations s' = Imperative.this_decorations s.
Proof.
  revert s c. induction fuel as [|fuel IH]; intros s c N D Q A F; [lia|].
  cbn [Imperative.whileNext]. unfold Imperative.next. rewrite N.
  assert (K : (cursor < List.length (Imperative.cursors s))%nat)
    by (apply nth_error_Some; congruence).
  cbn [Imperative.cursors]. rewrite (replaceNth_nth_error _ _ _ K).
  unfold Imperative.advance. rewrite D, Q. cbn [negb].
  pose proof (scanFrom_nextMatch (Imperative.sc_doc c) (Imperative.sc_query c) Q
                (Z.to_nat (Imperative.sc_to c - Imperative.sc_pos c) + 1)
                (Imperative.sc_pos c) (Imperative.sc_to c)) as U.
  destruct (Imperative.nextMatch _ _ _ _ _) as [[f t]|].
  - destruct U as [U B]; [lia|]. rewrite U. cbn [Imperative.sc_done Imperative.sc_value].
    cbn [scanMatches].
    set (s1 := Imperative.mkStore _ (Imperative.arrays s)
                 (Imperative.this_decorations s)).
    set (c1 := Imperative.mkCursor (Imperative.sc_doc c) (Imperative.sc_query c) t
                 (Imperative.sc_to c) (f, t) false).
    assert (N1 : nth_error (Imperative.cursors s1) cursor = Some c1)
      by (apply replaceNth_nth_error; exact K).
    assert (L1 : List.length (Imperative.cursors s1)
                 = List.length (Imperative.cursors s))
      by (apply replaceNth_length).
    fold st. destruct (accepted st check f t).
    + destruct (pushAll_spec deco (decorate check range f t) s1 A)
        as [E [C [L T]]].
      rewrite E. change (Imperative.elements deco s1) with (Imperative.elements deco s).
      fold conf.
      destruct (Z.of_nat (List.length (Imperative.elements deco s
                                         ++ decorate check range f t))
                >? maxMatches conf).
      * eexists. split; [reflexivity|]. rewrite L, C, T. auto.
      * destruct (IH (Imperative.pushAll deco (decorate check range f t) s1) c1)
          as [s' [R [La [Lc Td]]]];
          [rewrite C; exact N1|reflexivity|exact Q|rewrite L; exact A|cbn; lia|].
        cbn [Imperative.sc_to Imperative.sc_pos Imperative.sc_doc
             Imperative.sc_query c1] in R.
        rewrite E in R.
        change (Imperative.elements deco s1) with (Imperative.elements deco s) in R.
        exists s'. split; [exact R|]. rewrite La, Lc, Td, L, C, T. auto.
    + destruct (IH s1 c1) as [s' [R [La [Lc Td]]]];
        [exact N1|reflexivity|exact Q|exact A|cbn; lia|].
      cbn [Imperative.sc_to Imperative.sc_pos Imperative.sc_doc
           Imperative.sc_query c1] in R.
      exists s'. split; [exact R|]. rewrite La, Lc, Td. auto.
  - rewrite U by lia. cbn [Imperative.sc_done scanMatches].
    eexists. split; [split; reflexivity|].
    cbn. rewrite replaceNth_length. auto.
Qed.

End Loop.

Section Parts.

Variable view : EditorView.
Variable check : option Categorizer.
Variable range : SelectionRange.
Variable query : jsstring.
Variable deco : nat.

Let st := state view.
Let conf := highlightConfig st.

(** A new cursor over a visible range, run to its end. *)
Lemma fresh_cursor_spec (pfrom pto : Z) (s : Imperative.Store) :
  (deco < List.length (Imperative.arrays s))%nat ->
  let run := Imperative.newCursor (doc st) query pfrom pto s in
  exists s',
    match scanMatches st conf check range (SearchCursor (doc st) query pfrom pto)
            (Imperative.elements deco s) with
    | Some d =>
        Imperative.whileNext (Z.to_nat (pto - pfrom) + 1) view check range
          (fst run) deco (snd run)
        = (Imperative.Finished, s')
        /\ Imperative.elements deco s' = d
    | None =>
        Imperative.whileNext (Z.to_nat (pto - pfrom) + 1) view check range
          (fst run) deco (snd run)
        = (Imperative.Returned, s')
    end
    /\ List.length (Imperative.arrays s') = List.length (Imperative.arrays s)
    /\ Imperative.this_decorations s' = Imperative.this_decorations s.
Proof.
  intros A run. unfold Imperative.newCursor in run. cbn [fst snd run].
  set (c0 := Imperative.mkCursor (doc st) query pfrom pto (0, 0) false).
  set (s0 := Imperative.mkStore (Imperative.cursors s ++ [c0])
               (Imperative.arrays s) (Imperative.this_decorations s)).
  assert (N : nth_error (Imperative.cursors s0)
                (List.length (Imperative.cursors s)) = Some c0).
  { cbn [s0 Imperative.cursors]. rewrite nth_error_app2 by lia.
    rewrite Nat.sub_diag. reflexivity. }
  unfold SearchCursor. destruct (truthy query) eqn:Q.
  - destruct (whileNext_spec view check range (List.length (Imperative.cursors s))
                deco (Z.to_nat (pto - pfrom) + 1) s0 c0 N eq_refl Q A)
      as [s' [R [La [_ T]]]]; [cbn; lia|].
    exists s'. split; [exact R|]. split; [exact La|exact T].
  - replace (Z.to_nat (pto - pfrom) + 1)%nat with (S (Z.to_nat (pto - pfrom)))
      by lia.
    cbn [Imperative.whileNext scanMatches]. unfold Imperative.next. rewrite N.
    assert (K : (List.length (Imperative.cursors s)
                 < List.length (Imperative.cursors s0))%nat)
      by (apply nth_error_Some; congruence).
    cbn [Imperative.cursors]. cbn [Imperative.cursors] in K.
    rewrite (replaceNth_nth_error _ _ _ K).
    unfold Imperative.advance. cbn [c0 Imperative.sc_done Imperative.sc_query].
    rewrite Q. cbn [negb Imperative.sc_done].
    eexists. split; [split; reflexivity|]. split; reflexivity.
Qed.

(** The loop over the visible ranges does what [scanParts] does. *)
Lemma forParts_spec (parts : list (Z * Z)) (s : Imperative.Store) :
  (deco < List.length (Imperative.arrays s))%nat ->
  exists s',
    match scanParts st conf check range query parts (Imperative.elements deco s) with
    | Some d =>
        Imperative.forParts view check range query parts deco s
        = (Imperative.Finished, s')
        /\ Imperative.elements deco s' = d
    | None =>
        Imperative.forParts view check range query parts deco s
        = (Imperative.Returned, s')
    end
    /\ Imperative.this_decorations s' = Imperative.this_decorations s.
Proof.
  revert s. induction parts as [|[pfrom pto] rest IH]; intros s A.
  - exists s. cbn. auto.
  - cbn [scanParts Imperative.forParts].
    destruct (fresh_cursor_spec pfrom pto s A) as [s1 [R [La T]]].
    cbv zeta in R.
    destruct (Imperative.newCursor (doc (state view)) query pfrom pto s)
      as [cursor s0] eqn:E.
    fold st in E. rewrite E in R. cbn [fst snd] in R. fold st conf.
    destruct (scanMatches st conf check range
                (SearchCursor (doc st) query pfrom pto)
                (Imperative.elements deco s)) as [d1|].
    + destruct R as [R D1]. rewrite R.
      destruct (IH s1) as [s' [R' T']]; [rewrite La; exact A|].
      rewrite D1 in R'. exists s'. split; [exact R'|]. rewrite T', T. reflexivity.
    + rewrite R. exists s1. auto.
Qed.

End Parts.

(** The pass in the store returns what the pass returns, whatever the
    store holds, and leaves the field of the plugin alone. *)
Lemma collect_spec (view : EditorView) (check : option Categorizer)
  (range : SelectionRange) (query : jsstring) (s : Imperative.Store) :
  fst (Imperative.collect view check range query s)
  = Imperative.Done (Normal (collect view check range query))
  /\ Imperative.this_decorations (snd (Imperative.collect view check range query s))
     = Imperative.this_decorations s.
Proof.
  unfold Imperative.collect, Imperative.newArray, collect.
  set (s0 := Imperative.mkStore (Imperative.cursors s)
               (Imperative.arrays s ++ [[]]) (Imperative.this_decorations s)).
  assert (A : (List.length (Imperative.arrays s)
               < List.length (Imperative.arrays s0))%nat)
    by (cbn; rewrite length_app; cbn; lia).
  assert (E : Imperative.elements (List.length (Imperative.arrays s)) s0 = []).
  { unfold Imperative.elements. cbn [s0 Imperative.arrays].
    rewrite app_nth2 by lia. rewrite Nat.sub_diag. reflexivity. }
  destruct (forParts_spec view check range query
              (List.length (Imperative.arrays s)) (visibleRanges view) s0 A)
    as [s' [R T]].
  rewrite E in R.
  destruct (scanParts (state view) (highlightConfig (state view)) check range
              query (visibleRanges view) []) as [d|].
  - destruct R as [R D]. rewrite R. cbn [fst snd]. rewrite D. auto.
  - rewrite R. cbn [fst snd]. auto.
Qed.

Lemma getDeco_spec (view : EditorView) (s : Imperative.Store) :
  fst (Imperative.getDeco view s) = Imperative.Done (getDeco view)
  /\ Imperative.this_decorations (snd (Imperative.getDeco view s))
     = Imperative.this_decorations s.
Proof.
  unfold Imperative.getDeco, getDeco.
  destruct (chooseQuery view) as [[[query check]|]|]; cbn [bind fst snd]; auto.
  apply collect_spec.
Qed.

(** C9. [getDeco] creates its array and its cursors anew each time and
    reads no object that was there before: in any store, with whatever
    arrays, used cursors and earlier decorations it holds, the run
    ends and returns what depends on the view alone; a second run,
    in the store the first has left behind, returns the same set, and
    a second [update] of the plugin leaves in [this.decorations] what
    the first has put there. *)
Theorem getDeco_repeatable (view : EditorView) (s : Imperative.Store) :
  fst (Imperative.getDeco view s) = Imperative.Done (getDeco view)
  /\ fst (Imperative.getDeco view (snd (Imperative.getDeco view s)))
     = fst (Imperative.getDeco view s)
  /\ forall selectionSet docChanged viewportChanged : bool,
       let u := mkUpdate view selectionSet docChanged viewportChanged in
       Imperative.this_decorations (Imperative.update u (Imperative.update u s))
       = Imperative.this_decorations (Imperative.update u s).
Proof.
  split; [apply getDeco_spec|]. split.
  - rewrite (proj1 (getDeco_spec view s)). apply getDeco_spec.
  - intros f1 f2 f3 u.
    assert (U : forall s0,
               Imperative.this_decorations (Imperative.update u s0)
               = if selectionSet u || docChanged u || viewportChanged u
                 then match getDeco (SelectionMatch.view u) with
                      | Normal d => d
                      | Throw => Imperative.this_decorations s0
                      end
                 else Imperative.this_decorations s0).
    { intros s0. unfold Imperative.update.
      destruct (selectionSet u || docChanged u || viewportChanged u);
        [|reflexivity].
      destruct (getDeco_spec (SelectionMatch.view u) s0) as [R T].
      destruct (Imperative.getDeco (SelectionMatch.view u) s0) as [r s1].
      cbn [fst snd] in R, T. subst r.
      destruct (getDeco (SelectionMatch.view u)); [reflexivity|exact T]. }
    rewrite (U (Imperative.update u s)), (U s).
    destruct (selectionSet u || docChanged u || viewportChanged u);
      [|reflexivity].
    destruct (getDeco (SelectionMatch.view u)); reflexivity.
Qed.

(** A store that is not empty: a cursor over ["foo bar foo"] that is
    done, an array with a decoration in it, an earlier result in the
    plugin. Two runs on scenario 1 return the decoration of [[0,3)]
    both times, each with an array and a cursor of its own. *)
Example getDeco_twice_in_used_store :
  let used :=
    Imperative.mkStore
      [Imperative.mkCursor (str "foo bar foo") (str "foo") 11 11 (8, 11) true]
      [[mkDeco mainMatchDeco 4 7]] [mkDeco matchDeco 1 2] in
  let first := Imperative.getDeco Scenarios.fooBarFoo used in
  let second := Imperative.getDeco Scenarios.fooBarFoo (snd first) in
  fst first = Imperative.Done (Normal [mkDeco matchDeco 0 3])
  /\ fst second = Imperative.Done (Normal [mkDeco matchDeco 0 3])
  /\ List.length (Imperative.cursors (snd second)) = 3%nat
  /\ Imperative.arrays (snd second)
     = [[mkDeco mainMatchDeco 4 7]; [mkDeco matchDeco 0 3]; [mkDeco matchDeco 0 3]].
Proof. vm_compute. repeat split; reflexivity. Qed.

End ImperativeFacts.
